(** * The user and video repository over an object-storage bucket

    A shallow embedding of the repository module (createUser, listUsers,
    readUser, listVideos, updateUser, deleteUser, uploadVideo), of the
    older copy of updateUser in src/db.js, and of the routes that call the
    module.  The bucket is a finite map from keys to objects; every
    asynchronous function becomes a state-passing computation that either
    returns a value or throws. *)

From Stdlib Require Import ZArith Ascii.
From stdpp Require Import gmap strings list fin_maps sorting pretty.

Open Scope string_scope.
Open Scope list_scope.
Set Warnings "-register-all".

(* ================================================================== *)
(** * Part I: definitions *)
(* ================================================================== *)

(** ** JavaScript values *)

Module Js.

(** What JSON.parse can produce.  Numbers are kept as integers: the
    records of this program hold none, and nothing computes with them. *)
Inductive json :=
| JNull
| JBool (b : bool)
| JNum (n : Z)
| JStr (s : string)
| JArr (items : list json)
| JObj (fields : list (string * json)).

(** A value held by a variable, a parameter or a property read:
    [None] is JavaScript's undefined. *)
Definition jsval := option json.
Definition undefined : jsval := None.

(** Errors a computation can throw. *)
Inductive error :=
| Error (message : string)     (* throw new Error(message) *)
| TypeError                    (* property of null/undefined, call of a non-function *)
| SyntaxError                  (* JSON.parse on text that is not JSON *)
| S3Error                      (* the storage client rejected the command *)
| Wrapped (text : string) (cause : error).   (* new Error(text + cause.message) *)

Inductive outcome (A : Type) :=
| Ret (a : A)
| Throw (e : error).
Arguments Ret {A} a.
Arguments Throw {A} e.

Definition obind {A B} (o : outcome A) (k : A → outcome B) : outcome B :=
  match o with
  | Ret a => k a
  | Throw e => Throw e
  end.

(** [a === b].  Two objects or arrays are equal only when they are the same
    reference; in this program the two sides always come from different
    places (a parsed record against a parameter), so they never are. *)
Definition strict_eq (a b : jsval) : bool :=
  match a, b with
  | None, None => true
  | Some JNull, Some JNull => true
  | Some (JBool x), Some (JBool y) => bool_decide (x = y)
  | Some (JNum x), Some (JNum y) => bool_decide (x = y)
  | Some (JStr x), Some (JStr y) => bool_decide (x = y)
  | _, _ => false
  end.

(** Truthiness, as tested by [!v], [v || d] and [if (v)]. *)
Definition truthy (v : jsval) : bool :=
  match v with
  | None => false
  | Some JNull => false
  | Some (JBool b) => b
  | Some (JNum n) => negb (bool_decide (n = 0%Z))
  | Some (JStr s) => negb (bool_decide (s = EmptyString))
  | Some (JArr _) => true
  | Some (JObj _) => true
  end.

(** [a || b] *)
Definition or_else (a b : jsval) : jsval := if truthy a then a else b.

(** String coercion, as a template literal applies it. *)
Fixpoint to_str (j : json) : string :=
  match j with
  | JNull => "null"
  | JBool true => "true"
  | JBool false => "false"
  | JNum n => pretty n
  | JStr s => s
  | JArr items =>
      let elem x := match x with JNull => EmptyString | _ => to_str x end in
      (fix join (l : list json) : string :=
         match l with
         | [] => EmptyString
         | [x] => elem x
         | x :: r => elem x +:+ "," +:+ join r
         end) items
  | JObj _ => "[object Object]"
  end.

Definition tpl (v : jsval) : string :=
  match v with
  | None => "undefined"
  | Some j => to_str j
  end.

(** Own properties of an object. *)
Fixpoint lookup_field (f : string) (fields : list (string * json)) : jsval :=
  match fields with
  | [] => None
  | (k, v) :: r => if bool_decide (k = f) then Some v else lookup_field f r
  end.

(** [o.f = v]: replaces the property where it stands, or adds it last. *)
Fixpoint set_field (f : string) (v : json) (fields : list (string * json))
  : list (string * json) :=
  match fields with
  | [] => [(f, v)]
  | (k, w) :: r =>
      if bool_decide (k = f) then (k, v) :: r else (k, w) :: set_field f v r
  end.

(** [v.f] for the property names this program reads (none of them is
    length or an index): undefined on a primitive or an array, a TypeError
    on null and undefined. *)
Definition prop (f : string) (v : jsval) : outcome jsval :=
  match v with
  | None => Throw TypeError
  | Some JNull => Throw TypeError
  | Some (JObj fields) => Ret (lookup_field f fields)
  | Some _ => Ret None
  end.

(** An object literal [{ k1: v1, ... }] as JSON.stringify writes it:
    properties whose value is undefined are left out. *)
Definition literal (ps : list (string * jsval)) : list (string * json) :=
  omap (λ p, (λ v, (p.1, v)) <$> p.2) ps.

(** [{ ...v }]: the own enumerable properties of an object; for an array,
    its elements under their indices. *)
Definition spread (v : json) : list (string * json) :=
  match v with
  | JObj fields => fields
  | JArr items => imap (λ i x, (pretty i, x)) items
  | _ => []
  end.

(** [hay.includes(needle)] on strings. *)
Fixpoint str_includes (needle hay : string) : bool :=
  String.prefix needle hay ||
  match hay with
  | EmptyString => false
  | String _ rest => str_includes needle rest
  end.

(** [hay.endsWith(suffix)] *)
Fixpoint ends_with (suffix hay : string) : bool :=
  bool_decide (hay = suffix) ||
  match hay with
  | EmptyString => false
  | String _ rest => ends_with suffix rest
  end.

(** [recv.includes(x)]: array membership by strict equality, substring
    search on a string receiver; any other receiver has no such method. *)
Definition array_includes (items : list json) (x : jsval) : bool :=
  existsb (λ y, strict_eq (Some y) x) items.

Definition includes (recv x : jsval) : outcome bool :=
  match recv with
  | Some (JArr items) => Ret (array_includes items x)
  | Some (JStr s) => Ret (str_includes (tpl x) s)
  | _ => Throw TypeError
  end.

(** [typeof v === 'object'] *)
Definition typeof_object (v : json) : bool :=
  match v with
  | JNull | JArr _ | JObj _ => true
  | _ => false
  end.

(** [{ ...fields, f: v }] *)
Definition assign (f : string) (v : jsval) (fields : list (string * json))
  : list (string * json) :=
  match v with
  | Some j => set_field f j fields
  | None => filter (λ p, p.1 ≠ f) fields
  end.

(** [l.filter(p)] and [l.find(p)] for a callback that may throw. *)
Fixpoint js_filter {A} (p : A → outcome bool) (l : list A) : outcome (list A) :=
  match l with
  | [] => Ret []
  | x :: rest =>
      obind (p x) (λ keep,
      obind (js_filter p rest) (λ kept,
      Ret (if keep then x :: kept else kept)))
  end.

Fixpoint js_find {A} (p : A → outcome bool) (l : list A) : outcome (option A) :=
  match l with
  | [] => Ret None
  | x :: rest => obind (p x) (λ hit, if hit then Ret (Some x) else js_find p rest)
  end.

End Js.

Import Js.

(** ** The bucket *)

Module S3.

(** The content of an object: JSON text, kept as the value it denotes
    (JSON.stringify writes it, JSON.parse reads it back), or bytes that are
    not JSON. *)
Inductive body :=
| Doc (j : json)
| Raw (bytes : string).

Record object := { Body : body; ContentType : string }.

Definition JSON_stringify (j : json) : body := Doc j.

Definition JSON_parse (b : body) : outcome json :=
  match b with
  | Doc j => Ret j
  | Raw _ => Throw SyntaxError
  end.

(** Keys are compared as the service compares them, byte by byte. *)
Definition key_le (a b : string) : Prop := String.leb a b.

Global Instance key_le_dec a b : Decision (key_le a b) := _.

(** The keys under a prefix, in the order the service lists them. *)
Definition keys_under (prefix : string) (bucket : gmap string object) : list string :=
  merge_sort key_le
    (filter (λ k, String.prefix prefix k) (map_to_list bucket).*1).

(** One answer of ListObjectsV2 holds at most this many keys; the commands
    of this program set no MaxKeys of their own. *)
Definition MaxKeys : nat := 1000.

(** The keys one answer holds: the first of them.  The program reads one
    answer per listing and asks for no further page, so these are the keys
    it sees. *)
Definition listed (prefix : string) (bucket : gmap string object) : list string :=
  take MaxKeys (keys_under prefix bucket).

(** The commands sent to the service. *)
Inductive command :=
| GetObject (key : string)
| PutObject (key : string)
| HeadObject (key : string)
| DeleteObject (key : string)
| ListObjectsV2 (prefix : string)
| GetSignedUrl (key : string).

(** What the client does beyond reading and writing the bucket: [rejects]
    tells the commands the service fails (network, permissions), [sign]
    is the signed-URL generator. *)
Record client := {
  rejects : command → bool;
  sign : string → jsval → string
}.

End S3.

Import S3.

(** ** The module ./awsS3 *)

Module AwsS3.

(** The names ./awsS3 exports beside the client [s3] (its version for this
    client; a later one adds bucketName): the command classes. *)
Definition exports : list string :=
  ["s3"; "HeadBucketCommand"; "GetObjectCommand"; "PutObjectCommand";
   "ListObjectsV2Command"; "DeleteObjectCommand"].

(** A name taken from [require('./awsS3')] is bound to a class when the
    module exports it and to undefined otherwise. *)
Definition exported (name : string) : bool := bool_decide (name ∈ exports).

End AwsS3.

(** ** Asynchronous computations over the bucket *)

Definition async (A : Type) : Type :=
  gmap string object → outcome A * gmap string object.

Definition ret {A} (a : A) : async A := λ b, (Ret a, b).
Definition throw {A} (e : error) : async A := λ b, (Throw e, b).

Definition bind {A B} (m : async A) (k : A → async B) : async B :=
  λ b, match m b with
       | (Ret a, b') => k a b'
       | (Throw e, b') => (Throw e, b')
       end.

Definition lift {A} (o : outcome A) : async A := λ b, (o, b).

(** [try { m } catch (error) { handler }]: what [m] wrote before it threw
    stays written. *)
Definition try_catch {A} (m : async A) (handler : error → async A) : async A :=
  λ b, match m b with
       | (Ret a, b') => (Ret a, b')
       | (Throw e, b') => handler e b'
       end.

Notation "'let!' x ':=' m 'in' k" := (bind m (λ x, k))
  (at level 10, x name, m at level 100, k at level 200).
Notation "m ';;' k" := (bind m (λ _, k))
  (at level 100, k at level 200, right associativity).

(** [await Promise.all(items.map(f))]: every call is started, so every
    call's writes happen; the result is the list of results, or the
    rejection of the first call that failed. *)
Fixpoint promise_all {A B} (f : A → async B) (items : list A) : async (list B) :=
  match items with
  | [] => ret []
  | x :: rest =>
      λ b, match f x b with
           | (Ret y, b') =>
               match promise_all f rest b' with
               | (Ret ys, b'') => (Ret (y :: ys), b'')
               | (Throw e, b'') => (Throw e, b'')
               end
           | (Throw e, b') => (Throw e, (promise_all f rest b').2)
           end
  end.

(** ** The objects handed to the repository *)

(** What the registration route passes to createUser: an object with
    these seven properties.  Every one of them may be any value, undefined
    included: the route takes them from the body of the request. *)
Module UserData.
Record t := {
  firstName : jsval;
  email : jsval;
  password : jsval;
  classCodesArray : jsval;
  licenseKey : jsval;
  accountType : jsval;
  schoolName : jsval
}.
End UserData.

(** What the upload route passes to uploadVideo: the fields taken from the
    stored user or from the request may be any value. *)
Module VideoData.
Record t := {
  title : jsval;
  subject : jsval;
  userId : jsval;
  userEmail : jsval;
  classCode : jsval;
  accountType : jsval;
  schoolName : jsval;
  buffer : string;
  filename : string;
  mimetype : string;
  studentName : jsval
}.
End VideoData.

(** A computation that leaves the bucket as it found it. *)
Definition read_only {A} (m : async A) : Prop := ∀ b, (m b).2 = b.

Section Repository.

Variable s3 : client.

(** *** The storage client's commands *)

Definition s3_get (key : string) : async object :=
  λ b, if rejects s3 (GetObject key) then (Throw S3Error, b)
       else match b !! key with
            | Some o => (Ret o, b)
            | None => (Throw S3Error, b)
            end.

Definition s3_put (key : string) (o : object) : async unit :=
  λ b, if rejects s3 (PutObject key) then (Throw S3Error, b)
       else (Ret (), <[key := o]> b).

Definition s3_delete (key : string) : async unit :=
  λ b, if rejects s3 (DeleteObject key) then (Throw S3Error, b)
       else (Ret (), delete key b).

(** [s3.send(new HeadObjectCommand({ Key: key }))].  The repository module
    takes HeadObjectCommand from ./awsS3 like the other command classes,
    but ./awsS3 does not export it: the name is undefined and the [new] is
    a TypeError before anything is sent.  (The classes of the other
    commands are all exported.)  Were the class there, the key of the
    command might be any value, and only a string can name an object. *)
Definition s3_head (key : jsval) : async unit :=
  if negb (AwsS3.exported "HeadObjectCommand") then throw TypeError
  else
    λ b, match key with
         | Some (JStr k) =>
             if rejects s3 (HeadObject k) then (Throw S3Error, b)
             else if bool_decide (is_Some (b !! k)) then (Ret (), b)
             else (Throw S3Error, b)
         | _ => (Throw S3Error, b)
         end.

(** The [Contents] of the one answer read; the service leaves the property
    out when no key matches, which the callers treat as the empty list. *)
Definition s3_list (prefix : string) : async (list string) :=
  λ b, if rejects s3 (ListObjectsV2 prefix) then (Throw S3Error, b)
       else (Ret (listed prefix b), b).

Definition getSignedUrl (key : jsval) (contentType : jsval) : async string :=
  λ b, match key with
       | Some (JStr k) =>
           if rejects s3 (GetSignedUrl k) then (Throw S3Error, b)
           else (Ret (sign s3 k contentType), b)
       | _ => (Throw S3Error, b)
       end.


(** *** License tables *)

(** Maximum number of accounts per license key. *)
Definition licenseKeyLimits : list (string * nat) :=
  [("BurnsideHighSchool", 4); ("MP003", 8); ("3399", 20);
   ("STUDENT_KEY_1", 10); ("TEACHER_KEY_2", 10)].

(** [licenseKeyLimits[key] || 0], for a key that can reach the lookup:
    createUser makes it only after it found the key in an allowed set, so
    never for a name the table merely inherits (constructor, toString). *)
Definition licenseKeyLimit (key : string) : nat :=
  default 0 (snd <$> find (λ p, bool_decide (p.1 = key)) licenseKeyLimits).

(** [validLicenseKeys[accountType]], by the property name the account type
    converts to (an array converts to its elements joined by commas, so
    ['student'] names the property student).  The two account types have
    an array; under any other name the table has nothing ([None]) or what
    it inherits, a function or an object without [includes]: the call of
    [includes] on either is a TypeError. *)
Definition validLicenseKeys (accountType : string) : option (list string) :=
  if bool_decide (accountType = "student")
  then Some ["STUDENT_KEY_1"; "STUDENT_KEY_2"]
  else if bool_decide (accountType = "teacher")
  then Some ["TEACHER_KEY_1"; "TEACHER_KEY_2"]
  else None.

(** *** Users *)

(** What [JSON.stringify(userData)] writes. *)
Definition user_json (u : UserData.t) : json :=
  JObj (literal
    [("firstName", UserData.firstName u);
     ("email", UserData.email u);
     ("password", UserData.password u);
     ("classCodesArray", UserData.classCodesArray u);
     ("licenseKey", UserData.licenseKey u);
     ("accountType", UserData.accountType u);
     ("schoolName", UserData.schoolName u)]).

(** [`users/${email}.json`] *)
Definition user_key (email : string) : string := "users/" +:+ email +:+ ".json".

Definition json_object (j : json) : object :=
  {| Body := JSON_stringify j; ContentType := "application/json" |}.

(** [!user.email || !user.firstName || !user.accountType] *)
Definition missing_required (user : json) : outcome bool :=
  obind (prop "email" (Some user)) (λ e,
  if negb (truthy e) then Ret true else
  obind (prop "firstName" (Some user)) (λ f,
  if negb (truthy f) then Ret true else
  obind (prop "accountType" (Some user)) (λ a,
  Ret (negb (truthy a))))).

(** Fetch, decode and validate one user record, as listUsers does for each
    listed key and readUser for the key of its email. *)
Definition read_user_record (key : string) : async json :=
  let! userData := s3_get key in
  let! user := lift (JSON_parse (Body userData)) in
  let! bad := lift (missing_required user) in
  if bad then throw (Error "Invalid user data format") else ret user.

Definition listUsers : async (list json) :=
  try_catch
    (let! contents := s3_list "users/" in
     match contents with
     | [] => ret []
     | _ => promise_all read_user_record contents
     end)
    (λ error, throw error).

(** The body of createUser's [try]. *)
Definition createUser_try (userData : UserData.t) : async UserData.t :=
  let! existingUser :=
    try_catch (let! o := s3_get (user_key (tpl (UserData.email userData))) in
               ret (Some o))
              (λ _, ret None) in
  if bool_decide (is_Some existingUser) then throw (Error "Email already in use")
  else
    match validLicenseKeys (tpl (UserData.accountType userData)) with
    | None => throw TypeError
    | Some keys =>
        if negb (array_includes (JStr <$> keys) (UserData.licenseKey userData))
        then throw (Error "Invalid license key for the selected account type.")
        else
          let! users := listUsers in
          let! matching :=
            lift (js_filter
                    (λ u, obind (prop "licenseKey" (Some u)) (λ k,
                          Ret (strict_eq k (UserData.licenseKey userData))))
                    users) in
          let licenseKeyCount := length matching in
          if bool_decide (licenseKeyLimit (tpl (UserData.licenseKey userData))
                          ≤ licenseKeyCount)%nat
          then throw (Error "License key limit reached. No more accounts can be registered with this key.")
          else
            s3_put (user_key (tpl (UserData.email userData)))
                   (json_object (user_json userData));;
            ret userData
    end.

Definition createUser (userData : UserData.t) : async UserData.t :=
  try_catch (createUser_try userData)
            (λ _, throw (Error "Failed to register user")).

(** *** Videos *)

(** The object listVideos returns for a video:
    [{ ...metadata, videoUrl, videoKey, mimeType, metadataKey }]. *)
Definition video_entry (metadata : json) (videoUrl : string) (videoKey : jsval)
    (mimeType : jsval) (metadataKey : string) : json :=
  JObj (assign "metadataKey" (Some (JStr metadataKey))
       (assign "mimeType" mimeType
       (assign "videoKey" videoKey
       (assign "videoUrl" (Some (JStr videoUrl))
       (spread metadata))))).

(** The callback listVideos maps over the listed keys; [None] is its null. *)
Definition list_video_item (accountType schoolName classCodes : jsval)
    (key : string) : async (option json) :=
  if negb (ends_with ".json" key) then ret None
  else
    let! metadataResponse := s3_get key in
    try_catch
      (let! metadata := lift (JSON_parse (Body metadataResponse)) in
       if negb (truthy (Some metadata)) || negb (typeof_object metadata)
       then throw (Error "Invalid metadata format")
       else
         let! filtered_out :=
           if strict_eq accountType (Some (JStr "teacher")) then
             let! school := lift (prop "schoolName" (Some metadata)) in
             if negb (strict_eq school schoolName) then ret true
             else
               let! code := lift (prop "classCode" (Some metadata)) in
               let! listed := lift (includes classCodes code) in
               ret (negb listed)
           else ret false in
         if filtered_out then ret None
         else
           let! videoKey := lift (prop "videoPath" (Some metadata)) in
           try_catch
             (s3_head (Some (JStr key));;
              s3_head videoKey;;
              let! contentType := lift (prop "contentType" (Some metadata)) in
              let mimeType := or_else contentType (Some (JStr "video/mp4")) in
              let! videoUrl := getSignedUrl videoKey mimeType in
              ret (Some (video_entry metadata videoUrl videoKey mimeType key)))
             (λ _, ret None))
      (λ _, ret None).

(** The prefix listVideos lists under: the school for a teacher, the
    user's own folder otherwise. *)
Definition metadataPrefix (userEmail accountType schoolName : jsval) : string :=
  if strict_eq accountType (Some (JStr "teacher"))
  then "videos/" +:+ tpl schoolName +:+ "/"
  else "videos/" +:+ tpl schoolName +:+ "/" +:+ tpl userEmail +:+ "/".

(** [!accountType || !['student', 'teacher'].includes(accountType)] *)
Definition invalid_account_type (accountType : jsval) : bool :=
  negb (truthy accountType)
  || negb (array_includes [JStr "student"; JStr "teacher"] accountType).

(** The body of listVideos's [try]; [classCodes] has its default already. *)
Definition listVideos_try (userEmail accountType schoolName classCodes : jsval)
  : async (list json) :=
  if invalid_account_type accountType
  then throw (Error "Invalid account type")
  else
    let! contents := s3_list (metadataPrefix userEmail accountType schoolName) in
    let! videos :=
      promise_all (list_video_item accountType schoolName classCodes) contents in
    ret (omap id videos).

(** The default of the parameter: [classCodes = []]. *)
Definition classCodes_default (classCodes : jsval) : jsval :=
  match classCodes with
  | None => Some (JArr [])
  | Some _ => classCodes
  end.

Definition listVideos (userEmail accountType schoolName classCodes : jsval)
  : async (list json) :=
  let classCodes := classCodes_default classCodes in
  try_catch (listVideos_try userEmail accountType schoolName classCodes)
            (λ _, ret []).

Definition readUser (email : string) : async (json * list json) :=
  try_catch
    (let! user := read_user_record (user_key email) in
     let! user_email := lift (prop "email" (Some user)) in
     let! user_accountType := lift (prop "accountType" (Some user)) in
     let! user_schoolName := lift (prop "schoolName" (Some user)) in
     let! user_classCodesArray := lift (prop "classCodesArray" (Some user)) in
     let! videos := listVideos user_email user_accountType user_schoolName user_classCodesArray in
     ret (user, videos))
    (λ _, throw (Error "User not found")).

(** *** Class codes *)

(** A word between double quotes, for a message. *)
Definition quoted (word : string) : string :=
  let q := String (Ascii.ascii_of_nat 34) EmptyString in q +:+ word +:+ q.

(** [arr.push(x)]; JSON.stringify later writes an undefined element as null. *)
Definition push (arr x : jsval) : outcome (list json) :=
  match arr with
  | Some (JArr items) => Ret (items ++ [default JNull x])
  | _ => Throw TypeError
  end.

(** The 'add' branch of updateUser, on the parsed record. *)
Definition add_class_code (user : json) (classCode : jsval) : outcome json :=
  obind (prop "classCodesArray" (Some user)) (λ codes,
  match user with
  | JObj fields =>
      let fields :=
        if negb (truthy codes) then set_field "classCodesArray" (JArr []) fields
        else fields in
      obind (push (lookup_field "classCodesArray" fields) classCode) (λ items,
      Ret (JObj (set_field "classCodesArray" (JArr items) fields)))
  | JArr items =>
      (* the property lands on the array object, where JSON.stringify
         does not look *)
      Ret (JArr items)
  | _ => Throw TypeError
  end).

(** The 'delete' branch of updateUser, on the parsed record. *)
Definition delete_class_code (user : json) (classCode : jsval) : outcome json :=
  obind (prop "classCodesArray" (Some user)) (λ codes,
  obind (includes codes classCode) (λ found,
  if negb found then Throw (Error "Class code does not exist")
  else
    match codes, user with
    | Some (JArr items), JObj fields =>
        let kept := filter (λ code, strict_eq (Some code) classCode = false) items in
        Ret (JObj (set_field "classCodesArray" (JArr kept) fields))
    | _, _ => Throw TypeError
    end)).

(** [userData.Body.toString()].  The body this client hands back is the
    stream the other functions read chunk by chunk; a stream has no
    toString of its own, and the one it inherits gives this text whatever
    the object holds.  It is no JSON text. *)
Definition Body_toString (userData : object) : body := Raw "[object Object]".

(** updateUser decodes the record with [userData.Body.toString()] where
    the other functions join the chunks of the body. *)
Definition updateUser (email : string) (classCode action : jsval) : async string :=
  try_catch
    (let! userData := s3_get (user_key email) in
     let! user := lift (JSON_parse (Body_toString userData)) in
     let! user :=
       if strict_eq action (Some (JStr "add")) then lift (add_class_code user classCode)
       else if strict_eq action (Some (JStr "delete")) then lift (delete_class_code user classCode)
       else throw (Error ("Invalid action. Use " +:+ quoted "add" +:+ " or "
                          +:+ quoted "delete" +:+ ".")) in
     s3_put (user_key email) (json_object user);;
     ret ("Class code "
          +:+ (if strict_eq action (Some (JStr "add")) then "added" else "deleted")
          +:+ " successfully!"))
    (λ error, throw error).

(** *** Account removal *)

Definition deleteUser (email : string) : async bool :=
  try_catch
    (s3_delete (user_key email);;
     let! videos := listVideos (Some (JStr email)) undefined undefined undefined in
     promise_all
       (λ video,
          let! fileId := lift (prop "fileId" (Some video)) in
          s3_delete ("videos/" +:+ email +:+ "/" +:+ tpl fileId))
       videos;;
     ret true)
    (λ error, throw error).

(** *** Upload *)

(** The metadata record uploadVideo writes next to the payload. *)
Definition video_metadata (videoData : VideoData.t) (videoPath : jsval) : json :=
  JObj (literal
    [("title", VideoData.title videoData);
     ("subject", VideoData.subject videoData);
     ("userId", VideoData.userId videoData);
     ("userEmail", VideoData.userEmail videoData);
     ("classCode", VideoData.classCode videoData);
     ("contentType", Some (JStr (VideoData.mimetype videoData)));
     ("viewed", Some (JBool false));
     ("schoolName", VideoData.schoolName videoData);
     ("accountType", VideoData.accountType videoData);
     ("videoPath", Some (JStr (tpl videoPath +:+ ".mp4")))]).

(** The structured path; only a student's upload gets one. *)
Definition video_path (videoData : VideoData.t) : jsval :=
  if strict_eq (VideoData.accountType videoData) (Some (JStr "student"))
  then Some (JStr ("videos/" +:+ tpl (VideoData.schoolName videoData)
                   +:+ "/" +:+ tpl (VideoData.classCode videoData)
                   +:+ "/" +:+ tpl (VideoData.userEmail videoData)
                   +:+ "/" +:+ tpl (VideoData.title videoData)))
  else undefined.

(** Returns the metadata; the [fileId] of the result is the [Key] of the
    put's response, which has none.  The bucket written to is the one the
    environment names, taken to be the bucket the other functions read. *)
Definition uploadVideo (videoData : VideoData.t) : async (jsval * json) :=
  try_catch
    (let videoPath := video_path videoData in
     let metadata := video_metadata videoData videoPath in
     s3_put (tpl videoPath +:+ ".json") (json_object metadata);;
     s3_put (tpl videoPath +:+ ".json") (json_object metadata);;
     s3_put (tpl videoPath +:+ ".mp4")
            {| Body := Raw (VideoData.buffer videoData);
               ContentType := VideoData.mimetype videoData |};;
     ret (undefined, metadata))
    (λ error, throw (Wrapped "Failed to upload video: " error)).

End Repository.

(** ** The older copy of the module, src/db.js *)

Module Db.

(** updateUser of src/db.js.  Its client hands the body back as a buffer,
    whose toString is the stored text; the rest is as in the newer copy. *)
Definition updateUser (s3 : client) (email : string) (classCode action : jsval)
  : async string :=
  try_catch
    (let! userData := s3_get s3 (user_key email) in
     let! user := lift (JSON_parse (Body userData)) in
     let! user :=
       if strict_eq action (Some (JStr "add")) then lift (add_class_code user classCode)
       else if strict_eq action (Some (JStr "delete")) then lift (delete_class_code user classCode)
       else throw (Error ("Invalid action. Use " +:+ quoted "add" +:+ " or "
                          +:+ quoted "delete" +:+ ".")) in
     s3_put s3 (user_key email) (json_object user);;
     ret ("Class code "
          +:+ (if strict_eq action (Some (JStr "add")) then "added" else "deleted")
          +:+ " successfully!"))
    (λ error, throw error).

End Db.

(** ** The upload route *)

Module Route.

(** [req.file], as the upload middleware leaves it. *)
Record uploaded_file := {
  buffer : string;
  mimetype : string;
  originalname : string
}.

(** The fields of the request the handler reads, and the clock. *)
Record request := {
  email : jsval;
  title : jsval;
  subject : jsval;
  classCode : jsval;
  file : option uploaded_file;
  now : Z
}.

Inductive response :=
| Json (status : nat) (message : string) (cause : option error)
| Redirect (location : string).

(** [video.title === req.body.title && video.classCode === req.body.classCode] *)
Definition same_title_and_class (req : request) (video : json) : outcome bool :=
  obind (prop "title" (Some video)) (λ t,
  if negb (strict_eq t (title req)) then Ret false
  else obind (prop "classCode" (Some video)) (λ c,
       Ret (strict_eq c (classCode req)))).

(** [app.post('/upload', ...)] *)
Definition post_upload (s3 : client) (req : request) : async response :=
  match file req with
  | None => ret (Json 400 "No video file uploaded" None)
  | Some f =>
      try_catch
        (let! found := readUser s3 (tpl (email req)) in
         let user := Some found.1 in
         if negb (truthy user) then ret (Json 404 "User not found" None)
         else if negb (truthy user) then ret (Json 400 "Invalid user data" None)
         else
           let! user_email := lift (prop "email" user) in
           let! user_accountType := lift (prop "accountType" user) in
           let! user_schoolName := lift (prop "schoolName" user) in
           let! user_firstName := lift (prop "firstName" user) in
           let videoData :=
             {| VideoData.title := title req;
                VideoData.subject := subject req;
                VideoData.userId := user_email;
                VideoData.userEmail := user_email;
                VideoData.classCode := classCode req;
                VideoData.accountType := user_accountType;
                VideoData.schoolName := user_schoolName;
                VideoData.buffer := buffer f;
                VideoData.filename := pretty (now req) +:+ "_" +:+ originalname f;
                VideoData.mimetype := mimetype f;
                VideoData.studentName := user_firstName |} in
           let! videos := listVideos s3 user_email undefined undefined undefined in
           let! existingVideo := lift (js_find (same_title_and_class req) videos) in
           if bool_decide (is_Some existingVideo)
           then ret (Json 400 "A video with the same title and class code already exists" None)
           else
             uploadVideo s3 videoData;;
             ret (Redirect "/upload-.html"))
        (λ error, ret (Json 500 "Failed to upload video" (Some error)))
  end.

End Route.

(** ** What the specification calls things *)

(** The error kinds of the specification, as the errors the code throws. *)
Definition DuplicateEmail : error := Error "Email already in use".
Definition InvalidLicenseKey : error :=
  Error "Invalid license key for the selected account type.".
Definition LicenseLimitReached : error :=
  Error "License key limit reached. No more accounts can be registered with this key.".
Definition RegistrationFailed : error := Error "Failed to register user".
Definition UserNotFound : error := Error "User not found".
Definition ClassCodeNotFound : error := Error "Class code does not exist".

(** The stored object under [key] is a record whose license key is [k]. *)
Definition holds_license (k : string) (o : object) : bool :=
  match Body o with
  | Doc (JObj fields) => strict_eq (lookup_field "licenseKey" fields) (Some (JStr k))
  | _ => false
  end.

(** The number of stored users registered with license key [k]. *)
Definition registered_count (k : string) (bucket : gmap string object) : nat :=
  length (filter (λ p, String.prefix "users/" p.1 ∧ holds_license k p.2)
                 (map_to_list bucket)).

(** The number of them among the keys one listing of users/ gives. *)
Definition listed_count (k : string) (bucket : gmap string object) : nat :=
  length (filter (λ key, from_option (holds_license k) false (bucket !! key))
                 (listed "users/" bucket)).

(** The class codes of the user stored for [email], when the record has an
    array of them. *)
Definition stored_class_codes (email : string) (bucket : gmap string object)
  : option (list json) :=
  match bucket !! user_key email with
  | Some {| Body := Doc (JObj fields) |} =>
      match lookup_field "classCodesArray" fields with
      | Some (JArr codes) => Some codes
      | _ => None
      end
  | _ => None
  end.

(** The codes left when every occurrence of [classCode] is filtered out,
    as the 'delete' branch of updateUser does. *)
Definition without_code (classCode : jsval) (codes : list json) : list json :=
  filter (λ code, strict_eq (Some code) classCode = false) codes.

(** The record createUser finds for an email: a read the service fails
    counts as no record. *)
Definition existing_user (s3 : client) (email : string) (bucket : gmap string object)
  : option object :=
  if rejects s3 (GetObject (user_key email)) then None
  else bucket !! user_key email.

(** ** Sample data *)

Module Sample.

(** A service that fails no command. *)
Definition reliable : client :=
  {| rejects := λ _, false; sign := λ key _, "https://signed.example/" +:+ key |}.

Definition student (email key : string) (codes : list string) : UserData.t :=
  {| UserData.firstName := Some (JStr "ann");
     UserData.email := Some (JStr email);
     UserData.password := Some (JStr "$2b$10$hash");
     UserData.classCodesArray := Some (JArr (JStr <$> codes));
     UserData.licenseKey := Some (JStr key);
     UserData.accountType := Some (JStr "student");
     UserData.schoolName := Some (JStr "Burnside") |}.

Definition ann : UserData.t := student "a@b.com" "STUDENT_KEY_1" ["7A"].

Definition with_user (u : UserData.t) (bucket : gmap string object) : gmap string object :=
  <[user_key (tpl (UserData.email u)) := json_object (user_json u)]> bucket.


Definition newcomer_3399 : UserData.t := student "new@b.com" "3399" [].

(** Ten stored users holding STUDENT_KEY_1. *)
Definition holders_student_key : gmap string object :=
  foldr (λ i, with_user (student ("u" +:+ pretty i +:+ "@b.com") "STUDENT_KEY_1" []))
        ∅ (seq 0 10).

Definition newcomer : UserData.t := student "new@b.com" "STUDENT_KEY_1" [].

Definition admin : UserData.t :=
  {| UserData.firstName := Some (JStr "root");
     UserData.email := Some (JStr "root@b.com");
     UserData.password := Some (JStr "$2b$10$hash");
     UserData.classCodesArray := Some (JArr []);
     UserData.licenseKey := Some (JStr "STUDENT_KEY_1");
     UserData.accountType := Some (JStr "admin");
     UserData.schoolName := Some (JStr "Burnside") |}.

(** A registration whose account type is the array ['student']. *)
Definition array_student : UserData.t :=
  {| UserData.firstName := Some (JStr "bo");
     UserData.email := Some (JStr "bo@b.com");
     UserData.password := Some (JStr "$2b$10$hash");
     UserData.classCodesArray := Some (JArr []);
     UserData.licenseKey := Some (JStr "STUDENT_KEY_1");
     UserData.accountType := Some (JArr [JStr "student"]);
     UserData.schoolName := Some (JStr "Burnside") |}.


(** Ann's upload of Lab1 for class 7A. *)
Definition lab1 (bytes : string) : Route.request :=
  {| Route.email := Some (JStr "a@b.com");
     Route.title := Some (JStr "Lab1");
     Route.subject := Some (JStr "physics");
     Route.classCode := Some (JStr "7A");
     Route.file := Some {| Route.buffer := bytes;
                             Route.mimetype := "video/mp4";
                             Route.originalname := "lab1.mp4" |};
     Route.now := 1700000000000 |}.

(** The bucket after Ann registered and uploaded Lab1 once. *)
Definition ann_with_lab1 : gmap string object :=
  (Route.post_upload reliable (lab1 "first take") (with_user ann ∅)).2.

Definition lab1_metadata_key : string := "videos/Burnside/7A/a@b.com/Lab1.json".
Definition lab1_payload_key : string := "videos/Burnside/7A/a@b.com/Lab1.mp4".

End Sample.

(** ** Further notions used to state properties *)

(** A stored object that listUsers and readUser accept as a user record:
    JSON text whose email, firstName and accountType are all truthy. *)
Definition valid_user_object (o : object) : bool :=
  match Body o with
  | Doc user =>
      match missing_required user with
      | Ret false => true
      | _ => false
      end
  | Raw _ => false
  end.

(** An object under users/ that counts for license key [k]. *)
Definition counts_for (k key : string) (o : object) : bool :=
  String.prefix "users/" key && holds_license k o.

(** The JSON document stored under a key (null where there is none). *)
Definition stored_doc (bucket : gmap string object) (key : string) : json :=
  match bucket !! key with
  | Some {| Body := Doc j |} => j
  | _ => JNull
  end.

(** The record updateUser writes back: the branch on [action], on the
    parsed record. *)
Definition changed_record (action classCode : jsval) (user : json) : outcome json :=
  if strict_eq action (Some (JStr "add")) then add_class_code user classCode
  else if strict_eq action (Some (JStr "delete")) then delete_class_code user classCode
  else Throw (Error ("Invalid action. Use " +:+ quoted "add" +:+ " or "
                     +:+ quoted "delete" +:+ ".")).

(** The two keys uploadVideo writes, and the payload object. *)
Definition metadata_key (videoData : VideoData.t) : string :=
  tpl (video_path videoData) +:+ ".json".

Definition payload_key (videoData : VideoData.t) : string :=
  tpl (video_path videoData) +:+ ".mp4".

Definition payload_object (videoData : VideoData.t) : object :=
  {| Body := Raw (VideoData.buffer videoData);
     ContentType := VideoData.mimetype videoData |}.

(** A service that fails no command. *)
Definition never_rejects (s3 : client) : Prop := ∀ c, rejects s3 c = false.

(** ** More routes of the HTTP layer *)

Module Api.

(** What a handler sends: [res.status(s).json({ message })] with a fixed
    text or with the message of a caught error, [res.status(s).json(v)],
    [res.status(s).send(text)]. *)
Inductive reply :=
| Message (status : nat) (message : string)
| ErrorMessage (status : nat) (cause : error)
| Payload (status : nat) (body : json)
| Text (status : nat) (text : string).

(** The tables of the server file. *)
Definition validSchoolNames : list string := ["Burnside"; "STAC"; "School C"].
Definition validLicenseKeys : list string :=
  ["BurnsideHighSchool"; "MP003"; "3399"; "STUDENT_KEY_1"; "TEACHER_KEY_2"].

(** [s.split(',')] *)
Fixpoint split_commas (s : string) : list string :=
  match s with
  | EmptyString => [EmptyString]
  | String c rest =>
      if Ascii.eqb c ","%char then EmptyString :: split_commas rest
      else match split_commas rest with
           | [] => [String c EmptyString]
           | piece :: pieces => String c piece :: pieces
           end
  end.

(** The body of a registration request: whatever the JSON of the request
    holds under these names. *)
Record registration := {
  licenseKey : jsval;
  schoolName : jsval;
  firstName : jsval;
  email : jsval;
  password : jsval;
  classCodes : jsval;
  accountType : jsval
}.

(** [classCodes.split(',').map(code => code.trim())]: of the values a
    request can hold only a string has the method. *)
Definition split_and_trim (trim : string → string) (classCodes : jsval)
  : outcome (list string) :=
  match classCodes with
  | Some (JStr s) => Ret (trim <$> split_commas s)
  | _ => Throw TypeError
  end.

(** [app.post('/register', ...)].  [trim] is the string method of that
    name and [hash] what [bcrypt.hash(password, 10)] gives, a hash or a
    rejection.  The split and the hashing stand before the handler's only
    [try]: when one of them throws, the handler's promise rejects and no
    reply is sent, which is the [Throw] of this computation. *)
Definition post_register (s3 : client) (trim : string → string)
    (hash : jsval → outcome string) (req : registration) : async reply :=
  if array_includes (JStr <$> validLicenseKeys) (licenseKey req) then
    if negb (array_includes (JStr <$> validSchoolNames) (schoolName req))
    then ret (Message 400 "Invalid school name.")
    else
      let! classCodesArray := lift (split_and_trim trim (classCodes req)) in
      let! hashedPassword := lift (hash (password req)) in
      let newUser :=
        {| UserData.firstName := firstName req;
           UserData.email := email req;
           UserData.password := Some (JStr hashedPassword);
           UserData.classCodesArray := Some (JArr (JStr <$> classCodesArray));
           UserData.licenseKey := licenseKey req;
           UserData.accountType := accountType req;
           UserData.schoolName := schoolName req |} in
      try_catch
        (createUser s3 newUser;;
         ret (Payload 200 (JObj (literal
                [("message", Some (JStr "Registration successful!"));
                 ("email", email req)]))))
        (λ error, ret (ErrorMessage 400 error))
  else ret (Message 400 "Invalid license key").

(** [app.post('/api/reset-password', ...)].  [validated] is what
    validateResetToken gave for the token of the request and [hashed]
    what the hashing of the new password gave; the token is deleted from
    the token store, which is not part of the bucket, once updateUser
    has returned. *)
Definition post_reset_password (s3 : client) (validated : outcome jsval)
    (hashed : outcome string) : async reply :=
  try_catch
    (let! email := lift validated in
     if negb (truthy email)
     then ret (Text 400 "This password reset link has expired or is invalid. Please request a new one.")
     else
       let! hashedPassword := lift hashed in
       updateUser s3 (tpl email) undefined undefined;;
       ret (Text 200 "Your password has been reset successfully. You can now log in with your new password."))
    (λ _, ret (Text 500 "An error occurred while resetting your password. Please try again.")).

(** [app.put('/update-user', ...)] *)
Definition put_update_user (s3 : client) (email classCode action : jsval)
  : async reply :=
  if negb (truthy email) || negb (truthy classCode) || negb (truthy action)
  then ret (Message 400 "Email, class code, and action are required")
  else
    try_catch
      (let! found := readUser s3 (tpl email) in
       if negb (truthy (Some found.1)) then ret (Message 404 "User not found")
       else
         updateUser s3 (tpl email) classCode action;;
         ret (Message 200
                ("Class code "
                 +:+ (if strict_eq action (Some (JStr "add")) then "added" else "deleted")
                 +:+ " successfully!")))
      (λ _, ret (Message 500 "Code invalid")).

(** [app.delete('/delete-video', ...)]: the key of the command is the id
    of the request; only a string can name an object. *)
Definition delete_video (s3 : client) (videoId : jsval) : async reply :=
  if negb (truthy videoId) then ret (Message 400 "Video ID is required")
  else
    try_catch
      (match videoId with
       | Some (JStr key) => s3_delete s3 key
       | _ => throw S3Error
       end;;
       ret (Message 200 "Video deleted successfully"))
      (λ _, ret (Message 500 "Failed to delete video")).

End Api.

(** ** Further sample data *)

Module Cases.

(** A registration that leaves the first name empty. *)
Definition nameless : UserData.t :=
  {| UserData.firstName := Some (JStr EmptyString);
     UserData.email := Some (JStr "n@b.com");
     UserData.password := Some (JStr "$2b$10$hash");
     UserData.classCodesArray := Some (JArr []);
     UserData.licenseKey := Some (JStr "STUDENT_KEY_1");
     UserData.accountType := Some (JStr "student");
     UserData.schoolName := Some (JStr "Burnside") |}.

(** A bucket whose users/ folder holds bytes that are not JSON. *)
Definition with_stray_file : gmap string object :=
  <["users/notes.txt" := {| Body := Raw "to do"; ContentType := "text/plain" |}]> ∅.

(** A stored record without an array of class codes. *)
Definition bare_record : gmap string object :=
  <[user_key "c@b.com" :=
      json_object (JObj [("email", JStr "c@b.com"); ("firstName", JStr "cy");
                         ("accountType", JStr "teacher")])]> ∅.


(** A teacher's upload. *)
Definition lecture (title bytes : string) : VideoData.t :=
  {| VideoData.title := Some (JStr title);
     VideoData.subject := Some (JStr "physics");
     VideoData.userId := Some (JStr "t@b.com");
     VideoData.userEmail := Some (JStr "t@b.com");
     VideoData.classCode := Some (JStr "7A");
     VideoData.accountType := Some (JStr "teacher");
     VideoData.schoolName := Some (JStr "Burnside");
     VideoData.buffer := bytes;
     VideoData.filename := "1700000000000_lecture.mp4";
     VideoData.mimetype := "video/mp4";
     VideoData.studentName := Some (JStr "tom") |}.




(** A registration request for Ann. *)
Definition ann_request : Api.registration :=
  {| Api.licenseKey := Some (JStr "STUDENT_KEY_1");
     Api.schoolName := Some (JStr "Burnside");
     Api.firstName := Some (JStr "ann");
     Api.email := Some (JStr "a@b.com");
     Api.password := Some (JStr "secret");
     Api.classCodes := Some (JStr "7A, 7B");
     Api.accountType := Some (JStr "student") |}.

(** The same request without class codes. *)
Definition ann_request_without_codes : Api.registration :=
  {| Api.licenseKey := Some (JStr "STUDENT_KEY_1");
     Api.schoolName := Some (JStr "Burnside");
     Api.firstName := Some (JStr "ann");
     Api.email := Some (JStr "a@b.com");
     Api.password := Some (JStr "secret");
     Api.classCodes := undefined;
     Api.accountType := Some (JStr "student") |}.

(** A hashing that refuses what is not a string, as bcrypt does. *)
Definition hash_strings (password : jsval) : outcome string :=
  match password with
  | Some (JStr p) => Ret ("$2b$10$" +:+ p)
  | _ => Throw (Error "data and salt arguments required")
  end.

(** Removal of the blanks at both ends, for the samples. *)
Fixpoint drop_blanks (s : string) : string :=
  match s with
  | String c rest => if Ascii.eqb c " "%char then drop_blanks rest else s
  | EmptyString => s
  end.

Definition trim_blanks (s : string) : string :=
  String.rev (drop_blanks (String.rev (drop_blanks s))).

End Cases.

(* ================================================================== *)
(** * Part II: properties *)
(* ================================================================== *)

(** ** Computations that only read *)

Create HintDb read_only.

Lemma read_only_ret {A} (a : A) : read_only (ret a).
Proof. by intros b. Qed.

Lemma read_only_throw {A} e : read_only (@throw A e).
Proof. by intros b. Qed.

Lemma read_only_lift {A} (o : outcome A) : read_only (lift o).
Proof. by intros b. Qed.

Lemma read_only_bind {A B} (m : async A) (k : A → async B) :
  read_only m → (∀ a, read_only (k a)) → read_only (bind m k).
Proof.
  intros Hm Hk b. unfold bind. specialize (Hm b).
  destruct (m b) as [[a|e] b1]; simpl in *; subst; [apply Hk | done].
Qed.

Lemma read_only_try_catch {A} (m : async A) h :
  read_only m → (∀ e, read_only (h e)) → read_only (try_catch m h).
Proof.
  intros Hm Hh b. unfold try_catch. specialize (Hm b).
  destruct (m b) as [[a|e] b1]; simpl in *; subst; [done | apply Hh].
Qed.

Lemma read_only_promise_all {A B} (f : A → async B) items :
  (∀ x, read_only (f x)) → read_only (promise_all f items).
Proof.
  intros Hf. induction items as [|x rest IH]; intros b; [done|].
  simpl. specialize (Hf x b). specialize (IH b).
  destruct (f x b) as [[y|e] b1]; simpl in *; subst; [|done].
  by destruct (promise_all f rest b) as [[ys|e] b2].
Qed.

Lemma read_only_if {A} (c : bool) (m1 m2 : async A) :
  read_only m1 → read_only m2 → read_only (if c then m1 else m2).
Proof. by destruct c. Qed.

Lemma read_only_s3_get s3 key : read_only (s3_get s3 key).
Proof. intros b. unfold s3_get. by repeat case_match. Qed.

Lemma read_only_s3_head s3 key : read_only (s3_head s3 key).
Proof. intros b. unfold s3_head. by repeat case_match. Qed.

Lemma read_only_s3_list s3 prefix : read_only (s3_list s3 prefix).
Proof. intros b. unfold s3_list. by case_match. Qed.

Lemma read_only_getSignedUrl s3 key ct : read_only (getSignedUrl s3 key ct).
Proof. intros b. unfold getSignedUrl. by repeat case_match. Qed.

#[export] Hint Resolve read_only_ret read_only_throw read_only_lift
  read_only_s3_get read_only_s3_head read_only_s3_list
  read_only_getSignedUrl : read_only.

Ltac solve_read_only :=
  repeat first
    [ progress auto with read_only
    | apply read_only_try_catch; [|intros ?]
    | apply read_only_bind; [|intros ?]
    | apply read_only_promise_all; intros ?
    | apply read_only_if
    | progress case_match ].

Lemma read_only_read_user_record s3 key : read_only (read_user_record s3 key).
Proof. unfold read_user_record. solve_read_only. Qed.

Lemma read_only_listUsers s3 : read_only (listUsers s3).
Proof.
  unfold listUsers. solve_read_only.
Qed.

Lemma read_only_list_video_item s3 a sc cc key :
  read_only (list_video_item s3 a sc cc key).
Proof. unfold list_video_item. solve_read_only. Qed.

Lemma read_only_listVideos_try s3 ue a sc cc :
  read_only (listVideos_try s3 ue a sc cc).
Proof.
  unfold listVideos_try. solve_read_only.
Qed.

Lemma read_only_listVideos s3 ue a sc cc : read_only (listVideos s3 ue a sc cc).
Proof.
  unfold listVideos. apply read_only_try_catch; [|intros ?; apply read_only_ret].
  apply read_only_listVideos_try.
Qed.

Lemma read_only_readUser s3 email : read_only (readUser s3 email).
Proof.
  unfold readUser. apply read_only_try_catch; [|intros ?; apply read_only_throw].
  apply read_only_bind; [apply read_only_read_user_record|intros ?].
  repeat (apply read_only_bind; [apply read_only_lift|intros ?]).
  apply read_only_bind; [apply read_only_listVideos|intros ?]. apply read_only_ret.
Qed.

(** Running a read-only computation: its result, and the same bucket. *)
Lemma read_only_run {A} (m : async A) b :
  read_only m → m b = ((m b).1, b).
Proof. intros Hm. specialize (Hm b). by destruct (m b) as [r b1]; simpl in *; subst. Qed.

(** ** Listings *)

Lemma elem_of_keys_under prefix (b : gmap string object) k :
  k ∈ keys_under prefix b ↔ String.prefix prefix k ∧ is_Some (b !! k).
Proof.
  unfold keys_under. rewrite merge_sort_Permutation, list_elem_of_filter.
  apply and_iff_compat_l. rewrite list_elem_of_fmap. split.
  - intros [[k' o] [-> Hin]]. apply elem_of_map_to_list in Hin. by exists o.
  - intros [o Ho]. exists (k, o). split; [done|]. by apply elem_of_map_to_list.
Qed.

(** What one answer holds is under the prefix and in the bucket. *)
Lemma elem_of_listed prefix (b : gmap string object) k :
  k ∈ listed prefix b → String.prefix prefix k ∧ is_Some (b !! k).
Proof. intros Hin. apply elem_of_keys_under. by apply (subseteq_take MaxKeys). Qed.

(** With no more keys under the prefix than one answer holds, the answer
    has them all. *)
Lemma listed_all prefix (b : gmap string object) :
  (length (keys_under prefix b) ≤ MaxKeys)%nat →
  listed prefix b = keys_under prefix b.
Proof. apply take_ge. Qed.

(** Counting the keys under a prefix that satisfy a test on their object is
    counting the bucket's entries under the prefix that satisfy it. *)
Lemma count_keys_under prefix (test : object → bool) (b : gmap string object) :
  length (filter (λ k, from_option test false (b !! k)) (keys_under prefix b))
  = length (filter (λ p, String.prefix prefix p.1 ∧ test p.2) (map_to_list b)).
Proof.
  unfold keys_under. rewrite merge_sort_Permutation.
  assert (Forall (λ p, b !! p.1 = Some p.2) (map_to_list b)) as Hall.
  { apply Forall_forall. intros [k o] Hin. by apply elem_of_map_to_list. }
  induction Hall as [|[k o] l Hko _ IH]; [done|]. simpl in Hko.
  rewrite fmap_cons. simpl fst.
  destruct (String.prefix prefix k) eqn:Hp.
  - rewrite (filter_cons_True _ k) by (by rewrite Hp).
    destruct (test o) eqn:Ht.
    + rewrite (filter_cons_True _ k) by (by rewrite Hko; simpl; rewrite Ht).
      rewrite (filter_cons_True _ (k, o)) by (by simpl; rewrite Hp, Ht).
      simpl. by rewrite IH.
    + rewrite (filter_cons_False _ k) by (rewrite Hko; simpl; rewrite Ht; tauto).
      rewrite (filter_cons_False _ (k, o)) by (simpl; rewrite Ht; tauto).
      done.
  - rewrite (filter_cons_False _ k) by (rewrite Hp; simpl; tauto).
    rewrite (filter_cons_False _ (k, o)) by (simpl; rewrite Hp; simpl; tauto).
    done.
Qed.

(** While users/ holds no more keys than one answer, the holders a
    listing shows are all the holders there are. *)
Lemma listed_count_all k (b : gmap string object) :
  (length (keys_under "users/" b) ≤ MaxKeys)%nat →
  listed_count k b = registered_count k b.
Proof.
  intros Hfew. unfold listed_count, registered_count.
  rewrite listed_all by done. apply count_keys_under.
Qed.

(** When every call leaves the bucket alone, the results of
    [promise_all] are the results of the calls, one per item. *)
Lemma promise_all_ret {A B} (f : A → async B) items b ys :
  (∀ x, read_only (f x)) →
  (promise_all f items b).1 = Ret ys →
  Forall2 (λ x y, (f x b).1 = Ret y) items ys.
Proof.
  intros Hro. revert ys. induction items as [|x rest IH]; intros ys Hall.
  - simpl in Hall. simplify_eq. constructor.
  - simpl in Hall. pose proof (Hro x b) as Hx.
    destruct (f x b) as [[y|e] b1] eqn:Hfx; simpl in Hx; subst b1; [|done].
    destruct (promise_all f rest b) as [[ys'|e] b2] eqn:Hrest; [|done].
    simpl in Hall. simplify_eq. constructor; [by rewrite Hfx|]. by apply IH.
Qed.

(** If one call throws, so does [promise_all]. *)
Lemma promise_all_throw {A B} (f : A → async B) items b x e :
  (∀ x, read_only (f x)) →
  x ∈ items → (f x b).1 = Throw e →
  ∃ e', (promise_all f items b).1 = Throw e'.
Proof.
  intros Hro Hin Hx. induction items as [|x' rest IH]; [by apply elem_of_nil in Hin|].
  simpl. pose proof (Hro x' b) as Hx'.
  destruct (f x' b) as [[y|e1] b1] eqn:Hfx; simpl in Hx'; subst b1; [|by eexists].
  apply elem_of_cons in Hin as [->|Hin]; [by rewrite Hfx in Hx|].
  destruct (IH Hin) as [e' He']. exists e'.
  by destruct (promise_all f rest b) as [[ys|e2] b2]; simpl in *; simplify_eq.
Qed.

(** If every call returns, [promise_all] returns their results. *)
Lemma promise_all_map {A B} (f : A → async B) (g : A → B) items b :
  (∀ x, read_only (f x)) →
  Forall (λ x, (f x b).1 = Ret (g x)) items →
  promise_all f items b = (Ret (g <$> items), b).
Proof.
  intros Hro Hall. induction Hall as [|x rest Hx _ IH]; [done|].
  simpl. pose proof (Hro x b) as Hb.
  destruct (f x b) as [[y|e] b1]; simpl in *; simplify_eq. by rewrite IH.
Qed.

(** ** Values *)

Lemma strict_eq_JStr c X : strict_eq (Some c) (Some (JStr X)) = true ↔ c = JStr X.
Proof.
  destruct c; simpl; try (split; [done|by intros [=]]).
  rewrite bool_decide_eq_true. split; [by intros ->|by intros [= ->]].
Qed.

Lemma array_includes_true X codes :
  array_includes codes (Some (JStr X)) = true ↔ JStr X ∈ codes.
Proof.
  unfold array_includes. rewrite existsb_exists. split.
  - intros (c & Hin & Heq). apply strict_eq_JStr in Heq as ->. by apply list_elem_of_In.
  - intros Hin. exists (JStr X). split; [by apply list_elem_of_In|by apply strict_eq_JStr].
Qed.

(** Only a string is found in an array of strings. *)
Lemma array_includes_strings keys v :
  array_includes (JStr <$> keys) v = true ↔ ∃ k, v = Some (JStr k) ∧ k ∈ keys.
Proof.
  unfold array_includes. rewrite existsb_exists. split.
  - intros (y & Hin & Heq). apply list_elem_of_In, list_elem_of_fmap in Hin
      as (k & -> & Hk).
    destruct v as [[| | |s| |]|]; simpl in Heq; try done.
    apply bool_decide_eq_true in Heq as <-. eauto.
  - intros (k & -> & Hk). exists (JStr k). split.
    + apply list_elem_of_In, list_elem_of_fmap. eauto.
    + simpl. by rewrite bool_decide_eq_true_2.
Qed.

(** A value that converts to the name of an account type is a string or
    an array, and so is truthy. *)
Lemma account_type_truthy a :
  tpl a = "student" ∨ tpl a = "teacher" → truthy a = true.
Proof.
  destruct a as [[|[]|n|s| |]|]; simpl; try (by intros [|]); try done.
  - intros Hn. apply negb_true_iff, bool_decide_eq_false. intros ->.
    by destruct Hn.
  - intros Hs. apply negb_true_iff, bool_decide_eq_false. intros ->.
    by destruct Hs.
Qed.

Lemma lookup_set_field_eq f v fields :
  lookup_field f (set_field f v fields) = Some v.
Proof.
  induction fields as [|[k w] rest IH]; simpl.
  - by rewrite bool_decide_eq_true_2.
  - case_bool_decide as Hk; simpl.
    + by rewrite bool_decide_eq_true_2.
    + by rewrite bool_decide_eq_false_2.
Qed.

Lemma lookup_set_field_ne f g v fields :
  f ≠ g → lookup_field f (set_field g v fields) = lookup_field f fields.
Proof.
  intros Hne. induction fields as [|[k w] rest IH]; simpl.
  - by rewrite bool_decide_eq_false_2.
  - case_bool_decide as Hk; simpl.
    + subst k. by rewrite !bool_decide_eq_false_2.
    + by rewrite IH.
Qed.

Lemma set_field_id f v fields :
  lookup_field f fields = Some v → set_field f v fields = fields.
Proof.
  induction fields as [|[k w] rest IH]; simpl; [done|].
  case_bool_decide; [by intros [= ->]|]. intros Hl. by rewrite IH.
Qed.

Lemma set_field_twice f v w fields :
  set_field f v (set_field f w fields) = set_field f v fields.
Proof.
  induction fields as [|[k u] rest IH]; simpl.
  - by rewrite bool_decide_eq_true_2.
  - case_bool_decide as Hk; simpl.
    + by rewrite bool_decide_eq_true_2.
    + by rewrite bool_decide_eq_false_2, IH.
Qed.

Lemma lookup_literal_absent f ps :
  f ∉ ps.*1 → lookup_field f (literal ps) = None.
Proof.
  induction ps as [|[k [j|]] ps IH]; [done| |]; rewrite fmap_cons; simpl;
    intros [Hk Hps]%not_elem_of_cons.
  - rewrite bool_decide_eq_false_2 by done. by apply IH.
  - by apply IH.
Qed.

(** In a literal whose names differ, a property has the value written
    for it. *)
Lemma lookup_literal f v ps :
  NoDup ps.*1 → (f, v) ∈ ps → lookup_field f (literal ps) = v.
Proof.
  induction ps as [|[k w] ps IH]; [by intros _ ?%elem_of_nil|].
  rewrite fmap_cons. simpl. intros [Hk Hnd]%NoDup_cons [Heq|Hin]%elem_of_cons.
  - injection Heq as -> ->. destruct w as [j|]; simpl.
    + by rewrite bool_decide_eq_true_2.
    + by apply lookup_literal_absent.
  - assert (k ≠ f) as Hne.
    { intros ->. apply Hk. apply list_elem_of_fmap. by exists (f, v). }
    destruct w as [j|]; simpl.
    + rewrite bool_decide_eq_false_2 by done. by apply IH.
    + by apply IH.
Qed.

(** ** Strings and keys *)

Lemma prefix_empty s : String.prefix EmptyString s = true.
Proof. by destruct s. Qed.

Lemma prefix_append p s : String.prefix p (p +:+ s) = true.
Proof.
  induction p as [|a p IH]; simpl; [apply prefix_empty|].
  by destruct (Ascii.ascii_dec a a).
Qed.

Lemma user_key_prefix email : String.prefix "users/" (user_key email) = true.
Proof. unfold user_key. apply prefix_append. Qed.

(** ** Counting registered users *)

Lemma registered_count_insert_fresh k key o (b : gmap string object) :
  b !! key = None →
  registered_count k (<[key := o]> b)
  = (if counts_for k key o then 1 else 0) + registered_count k b.
Proof.
  intros Hfresh. unfold registered_count, counts_for.
  rewrite map_to_list_insert by done. rewrite filter_cons.
  destruct (decide _) as [H|H]; simpl in H;
    destruct (String.prefix "users/" key), (holds_license k o);
    simpl in *; try done; tauto.
Qed.

Lemma registered_count_delete k key o (b : gmap string object) :
  b !! key = Some o →
  registered_count k b
  = (if counts_for k key o then 1 else 0) + registered_count k (delete key b).
Proof.
  intros Hkey. rewrite <- (registered_count_insert_fresh k key o (delete key b))
    by apply lookup_delete_eq.
  by rewrite insert_delete_eq, insert_id.
Qed.

Lemma registered_count_insert k key o (b : gmap string object) :
  registered_count k (<[key := o]> b)
  = (if counts_for k key o then 1 else 0) + registered_count k (delete key b).
Proof.
  rewrite <- insert_delete_eq. apply registered_count_insert_fresh, lookup_delete_eq.
Qed.

Lemma registered_count_delete_le k key (b : gmap string object) :
  (registered_count k (delete key b) ≤ registered_count k b)%nat.
Proof.
  destruct (b !! key) as [o|] eqn:Hkey.
  - rewrite (registered_count_delete k key o b Hkey). lia.
  - by rewrite delete_id.
Qed.

(** ** The stored registration *)

(** The seven properties of a registration, as createUser is given them. *)
Lemma user_json_lookup u f v :
  (f, v) ∈ [("firstName", UserData.firstName u);
            ("email", UserData.email u);
            ("password", UserData.password u);
            ("classCodesArray", UserData.classCodesArray u);
            ("licenseKey", UserData.licenseKey u);
            ("accountType", UserData.accountType u);
            ("schoolName", UserData.schoolName u)] →
  prop f (Some (user_json u)) = Ret v.
Proof.
  intros Hin. unfold user_json, prop. f_equal.
  apply lookup_literal; [|exact Hin].
  apply (bool_decide_unpack _). by vm_compute.
Qed.


(** A stored registration counts for its own license key and for no other. *)
Lemma counts_for_user k u :
  counts_for k (user_key (tpl (UserData.email u))) (json_object (user_json u))
  = strict_eq (UserData.licenseKey u) (Some (JStr k)).
Proof.
  unfold counts_for. rewrite user_key_prefix. cbn [andb].
  unfold holds_license, json_object, JSON_stringify, user_json. cbn [Body].
  f_equal. apply lookup_literal; [|do 4 right; left].
  apply (bool_decide_unpack _). by vm_compute.
Qed.

(** ** Registration *)

Section Registration.

Variable s3 : client.

(** The existence check of createUser: any failure of the read counts as
    no record. *)
Lemma existence_check email b :
  try_catch (let! o := s3_get s3 (user_key email) in ret (Some o))
            (λ _, ret None) b = (Ret (existing_user s3 email b), b).
Proof.
  unfold try_catch, bind, ret, s3_get, existing_user.
  destruct (rejects s3 _); [done|]. by destruct (b !! _).
Qed.

(** A record that passes the validation is an object read from the bucket. *)
Lemma read_user_record_ret key b j :
  (read_user_record s3 key b).1 = Ret j →
  ∃ o fields, b !! key = Some o ∧ Body o = Doc (JObj fields) ∧ j = JObj fields.
Proof.
  unfold read_user_record, bind, s3_get, lift, throw, ret.
  destruct (rejects s3 _); [done|].
  destruct (b !! key) as [o|]; [|done]. simpl.
  destruct o as [[doc|bytes] ct]; simpl; [|done].
  destruct (missing_required doc) as [bad|e] eqn:Hreq; [|done].
  destruct bad; [done|]. intros [= ->].
  destruct j; try done. eauto.
Qed.

(** What listUsers returns: one validated record per key of the answer
    to its listing of users/. *)
Lemma listUsers_ret b users :
  (listUsers s3 b).1 = Ret users →
  Forall2 (λ key j, ∃ o fields,
             b !! key = Some o ∧ Body o = Doc (JObj fields) ∧ j = JObj fields)
          (listed "users/" b) users.
Proof.
  unfold listUsers, try_catch, bind, s3_list, ret, throw.
  destruct (rejects s3 _); [done|].
  destruct (listed "users/" b) as [|k rest] eqn:Hkeys.
  - intros [= <-]. constructor.
  - intros Hall.
    assert ((promise_all (read_user_record s3) (k :: rest) b).1 = Ret users) as Hp.
    { by destruct (promise_all _ _ _) as [[us|e] b1]; simpl in *; simplify_eq. }
    apply promise_all_ret in Hp; [|apply read_only_read_user_record].
    eapply Forall2_impl; [exact Hp|]. intros key j. apply read_user_record_ret.
Qed.

(** The count createUser makes over the listed users is the number of
    holders of the license key among the keys of that one answer. *)
Lemma license_count key b users :
  (listUsers s3 b).1 = Ret users →
  ∃ matching,
    js_filter (λ r, obind (prop "licenseKey" (Some r)) (λ k,
                    Ret (strict_eq k (Some (JStr key))))) users = Ret matching
    ∧ length matching = listed_count key b.
Proof.
  intros Hlist. apply listUsers_ret in Hlist. unfold listed_count.
  induction Hlist as [|k j keys users (o & fields & Hk & Ho & ->) _ (m & Hm & Hlen)].
  - by exists [].
  - cbn [js_filter]. rewrite Hm. cbn [obind prop].
    assert (holds_license key o
            = strict_eq (lookup_field "licenseKey" fields) (Some (JStr key))) as Hh.
    { unfold holds_license. by rewrite Ho. }
    destruct (strict_eq _ _) eqn:Heq; eexists; (split; [done|]).
    + rewrite filter_cons_True by (by rewrite Hk; simpl; rewrite Hh).
      simpl. by rewrite Hlen.
    + rewrite filter_cons_False by (rewrite Hk; simpl; rewrite Hh; simpl; tauto).
      done.
Qed.

(** The steps of createUser's [try], one after the other, on a bucket. *)
Lemma createUser_try_steps u b :
  createUser_try s3 u b =
    if bool_decide (is_Some (existing_user s3 (tpl (UserData.email u)) b))
    then (Throw DuplicateEmail, b)
    else match validLicenseKeys (tpl (UserData.accountType u)) with
    | None => (Throw TypeError, b)
    | Some keys =>
      if negb (array_includes (JStr <$> keys) (UserData.licenseKey u))
      then (Throw InvalidLicenseKey, b)
      else match (listUsers s3 b).1 with
      | Throw e => (Throw e, b)
      | Ret users =>
        match js_filter
                (λ r, obind (prop "licenseKey" (Some r)) (λ k,
                      Ret (strict_eq k (UserData.licenseKey u))))
                users with
        | Throw e => (Throw e, b)
        | Ret matching =>
          if bool_decide (licenseKeyLimit (tpl (UserData.licenseKey u))
                          ≤ length matching)%nat
          then (Throw LicenseLimitReached, b)
          else if rejects s3 (PutObject (user_key (tpl (UserData.email u))))
          then (Throw S3Error, b)
          else (Ret u,
                <[user_key (tpl (UserData.email u)) := json_object (user_json u)]> b)
        end
      end
    end.
Proof.
  unfold createUser_try, bind at 1. rewrite existence_check. cbv beta iota.
  case_bool_decide; [done|].
  destruct (validLicenseKeys _) as [keys|]; [|done].
  destruct (negb _); [done|].
  unfold bind at 1. pose proof (read_only_listUsers s3 b) as Hro.
  destruct (listUsers s3 b) as [[users|e] b1]; simpl in Hro |- *; subst b1; [|done].
  unfold bind at 1, lift.
  destruct (js_filter _ users) as [matching|e]; [|done].
  case_bool_decide; [done|].
  unfold bind, s3_put, ret. by destruct (rejects s3 _).
Qed.

(** createUser either stores the record and returns it, or throws the
    registration failure having written nothing. *)
Lemma createUser_cases u b :
  createUser s3 u b
    = (Ret u, <[user_key (tpl (UserData.email u)) := json_object (user_json u)]> b)
  ∨ createUser s3 u b = (Throw RegistrationFailed, b).
Proof.
  unfold createUser, try_catch. rewrite createUser_try_steps.
  repeat case_match; simplify_eq; auto.
Qed.


(** What a returning createUser went through. *)
Lemma createUser_ret_inv u b u' b' :
  createUser s3 u b = (Ret u', b') →
  u' = u
  ∧ b' = <[user_key (tpl (UserData.email u)) := json_object (user_json u)]> b
  ∧ existing_user s3 (tpl (UserData.email u)) b = None
  ∧ (∃ users, (listUsers s3 b).1 = Ret users)
  ∧ ∃ keys key,
      validLicenseKeys (tpl (UserData.accountType u)) = Some keys
      ∧ UserData.licenseKey u = Some (JStr key)
      ∧ key ∈ keys
      ∧ (listed_count key b < licenseKeyLimit key)%nat.
Proof.
  unfold createUser, try_catch. rewrite createUser_try_steps.
  case_bool_decide as Hex; [done|].
  destruct (validLicenseKeys _) as [keys|] eqn:Hkeys; [|done].
  destruct (array_includes _ _) eqn:Hin; cbn [negb]; [|done].
  apply array_includes_strings in Hin as (key & Hkey & Hin). rewrite Hkey.
  destruct (listUsers s3 b).1 as [users|e] eqn:Hlist; [|done].
  destruct (license_count key b users Hlist) as (m & -> & Hlen).
  cbn [tpl to_str].
  case_bool_decide as Hlim; [done|].
  destruct (rejects s3 _); [done|]. intros [= <- <-].
  split_and!; try done.
  - destruct (existing_user _ _ _); [|done]. exfalso. apply Hex. by eexists.
  - by exists users.
  - exists keys, key. split_and!; try done. lia.
Qed.


(** C2: whatever stops a registration, the caller of createUser gets the
    same error; the three validation failures are told apart only inside
    the function. *)
Theorem createUser_failures_collapse :
  (∀ u b, (∃ b', createUser s3 u b = (Ret u, b'))
          ∨ createUser s3 u b = (Throw RegistrationFailed, b))
  ∧ (createUser_try Sample.reliable Sample.ann (Sample.with_user Sample.ann ∅)).1
      = Throw DuplicateEmail
  ∧ (createUser Sample.reliable Sample.ann (Sample.with_user Sample.ann ∅)).1
      = Throw RegistrationFailed
  ∧ (createUser_try Sample.reliable Sample.newcomer_3399 ∅).1 = Throw InvalidLicenseKey
  ∧ (createUser Sample.reliable Sample.newcomer_3399 ∅).1 = Throw RegistrationFailed
  ∧ (createUser_try Sample.reliable Sample.newcomer Sample.holders_student_key).1
      = Throw LicenseLimitReached
  ∧ (createUser Sample.reliable Sample.newcomer Sample.holders_student_key).1
      = Throw RegistrationFailed.
Proof.
  split; [|by vm_compute].
  intros u b. destruct (createUser_cases u b) as [H|H]; eauto.
Qed.


(** C9, as the code has it: the allowed keys are looked up under the name
    the account type converts to; when that name is neither student nor
    teacher the lookup has no array to search, createUser answers with its
    registration failure, not with that error, and the bucket is as it
    was. *)
Theorem createUser_unknown_account_type u b :
  tpl (UserData.accountType u) ≠ "student" →
  tpl (UserData.accountType u) ≠ "teacher" →
  createUser s3 u b = (Throw RegistrationFailed, b)
  ∧ (createUser s3 u b).2 !! user_key (tpl (UserData.email u))
    = b !! user_key (tpl (UserData.email u))
  ∧ (existing_user s3 (tpl (UserData.email u)) b = None →
     createUser_try s3 u b = (Throw TypeError, b)).
Proof.
  intros Hs Ht.
  assert (validLicenseKeys (tpl (UserData.accountType u)) = None) as Hnone.
  { unfold validLicenseKeys. by rewrite !bool_decide_eq_false_2. }
  assert (createUser s3 u b = (Throw RegistrationFailed, b)) as Hfail.
  { unfold createUser, try_catch. rewrite createUser_try_steps, Hnone.
    by case_bool_decide. }
  split_and!; [done| by rewrite Hfail |].
  intros Hnew. rewrite createUser_try_steps, Hnew, Hnone.
  by rewrite bool_decide_eq_false_2 by (intros []; done).
Qed.

End Registration.





(** A registration as admin. *)
Lemma createUser_unknown_account_type_witness :
  tpl (UserData.accountType Sample.admin) ≠ "student"
  ∧ tpl (UserData.accountType Sample.admin) ≠ "teacher"
  ∧ createUser Sample.reliable Sample.admin ∅ = (Throw RegistrationFailed, ∅).
Proof.
  assert (tpl (UserData.accountType Sample.admin) ≠ "student") as Hs by (by vm_compute).
  assert (tpl (UserData.accountType Sample.admin) ≠ "teacher") as Ht by (by vm_compute).
  split; [exact Hs|]. split; [exact Ht|].
  exact (proj1 (createUser_unknown_account_type Sample.reliable Sample.admin ∅ Hs Ht)).
Defined.

(** C9 as stated fails: the account type ['student'] is neither 'student'
    nor 'teacher', yet it names the property student of the table, and the
    registration with a student key goes through and is stored. *)
Lemma createUser_account_type_counterexample :
  strict_eq (UserData.accountType Sample.array_student) (Some (JStr "student")) = false
  ∧ strict_eq (UserData.accountType Sample.array_student) (Some (JStr "teacher")) = false
  ∧ UserData.accountType Sample.array_student ≠ Some (JStr "student")
  ∧ UserData.accountType Sample.array_student ≠ Some (JStr "teacher")
  ∧ (createUser Sample.reliable Sample.array_student ∅).1 = Ret Sample.array_student
  ∧ (createUser Sample.reliable Sample.array_student ∅).2 !! "users/bo@b.com.json"
    = Some (json_object (user_json Sample.array_student)).
Proof. by vm_compute. Qed.

(** ** Listing videos *)

Lemma Forall2_elem_of_l {A B} (R : A → B → Prop) l k x :
  Forall2 R l k → x ∈ l → ∃ y, y ∈ k ∧ R x y.
Proof.
  induction 1 as [|x' y l k Hxy _ IH]; [by intros ?%elem_of_nil|].
  intros [->|Hin]%elem_of_cons.
  - exists y. split; [left|done].
  - destruct (IH Hin) as (y' & Hy' & HR). exists y'. split; [by right|done].
Qed.

Section Listing.

Variable s3 : client.

(** No HeadObject command is ever built, let alone sent. *)
Lemma s3_head_throws key b : s3_head s3 key b = (Throw TypeError, b).
Proof. reflexivity. Qed.

(** The callback never returns an entry.  For a key that does not end in
    .json it returns null; otherwise it reads the object, outside any
    [try] of its own, so that a failed read is its rejection; and once
    the object is read it returns null, be it for text that is no JSON,
    for a record a teacher's filter drops, or, for every other record,
    because the verification throws. *)
Lemma list_video_item_run a sc cc key b :
  list_video_item s3 a sc cc key b
  = if negb (ends_with ".json" key) then (Ret None, b)
    else match (s3_get s3 key b).1 with
         | Ret _ => (Ret None, b)
         | Throw e => (Throw e, b)
         end.
Proof.
  unfold list_video_item. destruct (negb (ends_with ".json" key)); [done|].
  unfold bind at 1. pose proof (read_only_s3_get s3 key b) as Hro.
  destruct (s3_get s3 key b) as [[o|e] b1]; simpl in Hro; subst b1; [|done].
  cbn [fst]. unfold try_catch at 1, bind at 1, lift at 1.
  destruct (JSON_parse (Body o)) as [metadata|e]; [|done].
  destruct (negb (truthy (Some metadata)) || negb (typeof_object metadata)); [done|].
  unfold bind at 1.
  assert (∃ r, (if strict_eq a (Some (JStr "teacher"))
                then let! school := lift (prop "schoolName" (Some metadata)) in
                     if negb (strict_eq school sc) then ret true
                     else let! code := lift (prop "classCode" (Some metadata)) in
                          let! listed := lift (includes cc code) in
                          ret (negb listed)
                else ret false) b = (r, b)) as [r ->].
  { destruct (strict_eq a _); [|by eexists].
    unfold bind at 1, lift at 1. destruct (prop "schoolName" _); [|by eexists].
    destruct (negb _); [by eexists|].
    unfold bind at 1, lift at 1. destruct (prop "classCode" _); [|by eexists].
    unfold bind, lift, ret. destruct (includes cc _); by eexists. }
  destruct r as [[|]|e]; [done| |done].
  unfold bind at 1, lift at 1. destruct (prop "videoPath" _); [|done].
  unfold try_catch, bind at 1. by rewrite s3_head_throws.
Qed.

(** listVideos returns what its [try] returns, and the empty list when
    that throws. *)
Lemma listVideos_run ue a sc cc b :
  listVideos s3 ue a sc cc b
  = (Ret match (listVideos_try s3 ue a sc (classCodes_default cc) b).1 with
         | Ret vs => vs
         | Throw _ => []
         end, b).
Proof.
  unfold listVideos, try_catch, ret.
  pose proof (read_only_listVideos_try s3 ue a sc (classCodes_default cc) b) as Hro.
  by destruct (listVideos_try _ _ _ _ _ _) as [[vs|e] b1]; simpl in *; subst.
Qed.

(** The [try] returns when the account type is valid, the listing answers
    and every callback returns. *)
Lemma listVideos_try_ret ue a sc cc b vs :
  (listVideos_try s3 ue a sc cc b).1 = Ret vs →
  invalid_account_type a = false
  ∧ rejects s3 (ListObjectsV2 (metadataPrefix ue a sc)) = false
  ∧ ∃ videos,
      Forall2 (λ key r, (list_video_item s3 a sc cc key b).1 = Ret r)
              (listed (metadataPrefix ue a sc) b) videos
      ∧ vs = omap id videos.
Proof.
  unfold listVideos_try.
  destruct (invalid_account_type a); [done|].
  unfold bind at 1, s3_list.
  destruct (rejects s3 _); [done|].
  unfold bind, ret.
  destruct (promise_all _ _ b) as [[videos|e] b1] eqn:Hall; [|done].
  simpl. intros [= <-]. split_and!; [done..|]. exists videos. split; [|done].
  apply promise_all_ret; [intros ?; apply read_only_list_video_item|].
  by rewrite Hall.
Qed.

(** The [try] never returns an entry. *)
Lemma listVideos_try_nil ue a sc cc b vs :
  (listVideos_try s3 ue a sc cc b).1 = Ret vs → vs = [].
Proof.
  intros (_ & _ & videos & Hall & ->)%listVideos_try_ret.
  induction Hall as [|key r keys videos Hitem _ IH]; [done|].
  rewrite list_video_item_run in Hitem.
  destruct (negb _); [by injection Hitem as <-|].
  destruct (s3_get s3 key b).1; [by injection Hitem as <-|done].
Qed.

(** listVideos lists nothing, whatever the bucket and whoever asks. *)
Lemma listVideos_nil ue a sc cc b : listVideos s3 ue a sc cc b = (Ret [], b).
Proof.
  rewrite listVideos_run. do 2 f_equal.
  destruct (listVideos_try _ _ _ _ _ _).1 as [vs|e] eqn:Htry; [|done].
  by apply listVideos_try_nil in Htry.
Qed.


(** C6: listVideos never lists an entry whose payload object is absent,
    for it never lists an entry.  Before it builds an entry the callback
    verifies the metadata object and the payload with two HeadObject
    commands, whose class ./awsS3 does not export: each verification
    throws, the callback gives null, and whatever the bucket holds and
    whoever asks, the list is empty.  No key's callback returns an entry,
    a dangling metadata object's no more than a complete video's. *)
Theorem listVideos_entries_have_payload ue a sc cc b :
  listVideos s3 ue a sc cc b = (Ret [], b)
  ∧ (∀ key v, (list_video_item s3 a sc (classCodes_default cc) key b).1 ≠ Ret (Some v))
  ∧ (∀ key, s3_head s3 key b = (Throw TypeError, b)).
Proof.
  split_and!.
  - apply listVideos_nil.
  - intros key v. rewrite list_video_item_run.
    destruct (negb _); [done|]. by destruct (s3_get s3 key b).1.
  - intros key. apply s3_head_throws.
Qed.


End Listing.

(** ** Callers that pass no account type *)

(** Without an account type listVideos gives the empty list, whatever the
    bucket holds. *)
Lemma listVideos_without_account_type s3 ue sc cc b :
  listVideos s3 ue undefined sc cc b = (Ret [], b).
Proof. by rewrite listVideos_run. Qed.

(** deleteUser removes the user record and nothing else: the videos it
    asks listVideos for are never any. *)
Lemma deleteUser_run s3 email b :
  deleteUser s3 email b
  = if rejects s3 (DeleteObject (user_key email)) then (Throw S3Error, b)
    else (Ret true, delete (user_key email) b).
Proof.
  unfold deleteUser, try_catch, bind at 1, s3_delete, throw.
  destruct (rejects s3 _); [done|].
  unfold bind at 1. by rewrite listVideos_without_account_type.
Qed.

(** C4, on the code: deleteUser touches no key but the user record's.
    After Ann's account is deleted her record is gone and readUser fails
    with user-not-found, but the metadata and the payload of her video
    Lab1 are still in the bucket. *)
Theorem deleteUser_keeps_videos :
  (∀ s3 email b key,
     key ≠ user_key email → (deleteUser s3 email b).2 !! key = b !! key)
  ∧ (deleteUser Sample.reliable "a@b.com" Sample.ann_with_lab1).1 = Ret true
  ∧ (deleteUser Sample.reliable "a@b.com" Sample.ann_with_lab1).2 !! user_key "a@b.com"
      = None
  ∧ (readUser Sample.reliable "a@b.com"
       (deleteUser Sample.reliable "a@b.com" Sample.ann_with_lab1).2).1
      = Throw UserNotFound
  ∧ (∃ o fields,
       (deleteUser Sample.reliable "a@b.com" Sample.ann_with_lab1).2
         !! Sample.lab1_metadata_key = Some o
       ∧ Body o = Doc (JObj fields)
       ∧ lookup_field "userEmail" fields = Some (JStr "a@b.com"))
  ∧ (deleteUser Sample.reliable "a@b.com" Sample.ann_with_lab1).2
      !! Sample.lab1_payload_key
      = Some {| Body := Raw "first take"; ContentType := "video/mp4" |}.
Proof.
  split.
  - intros s3 email b key Hkey. rewrite deleteUser_run.
    destruct (rejects s3 _); [done|]. simpl. by rewrite lookup_delete_ne.
  - split_and!; try by vm_compute.
    do 2 eexists. split_and!; by vm_compute.
Qed.

(** The duplicate check of the upload route never fires. *)
Lemma post_upload_never_rejects s3 req b :
  (Route.post_upload s3 req b).1
  ≠ Ret (Route.Json 400 "A video with the same title and class code already exists" None).
Proof.
  unfold Route.post_upload. destruct (Route.file req) as [f|]; [|by intros [=]].
  unfold try_catch.
  match goal with |- context [match ?m b with _ => _ end] =>
    destruct (m b) as [[r|e] b1] eqn:Hrun end; [|by intros [=]].
  simpl. intros [= ->]. revert Hrun.
  unfold bind at 1. destruct (readUser s3 _ b) as [[found|e] b2]; [|done].
  destruct (negb (truthy (Some found.1))); [by intros [=]|].
  repeat (unfold bind at 1, lift at 1; destruct (prop _ _) as [?|?]; [|done]).
  unfold bind at 1. rewrite listVideos_without_account_type.
  unfold bind at 1, lift at 1. simpl js_find. cbv beta iota.
  rewrite bool_decide_eq_false_2 by (by intros [? ?]).
  unfold bind, ret. by destruct (uploadVideo _ _ _) as [[?|?] ?].
Qed.

(** C5, on the code: the route never answers that the video exists.  Ann's
    second upload of Lab1 for class 7A, with other bytes, is accepted and
    replaces the stored payload. *)
Theorem post_upload_accepts_duplicate :
  (∀ s3 req b,
     (Route.post_upload s3 req b).1
     ≠ Ret (Route.Json 400 "A video with the same title and class code already exists" None))
  ∧ (∃ o fields,
       Sample.ann_with_lab1 !! Sample.lab1_metadata_key = Some o
       ∧ Body o = Doc (JObj fields)
       ∧ lookup_field "title" fields = Some (JStr "Lab1")
       ∧ lookup_field "classCode" fields = Some (JStr "7A")
       ∧ lookup_field "userEmail" fields = Some (JStr "a@b.com"))
  ∧ Sample.ann_with_lab1 !! Sample.lab1_payload_key
      = Some {| Body := Raw "first take"; ContentType := "video/mp4" |}
  ∧ (Route.post_upload Sample.reliable (Sample.lab1 "second take") Sample.ann_with_lab1).1
      = Ret (Route.Redirect "/upload-.html")
  ∧ (Route.post_upload Sample.reliable (Sample.lab1 "second take") Sample.ann_with_lab1).2
      !! Sample.lab1_payload_key
      = Some {| Body := Raw "second take"; ContentType := "video/mp4" |}
  ∧ (Route.post_upload Sample.reliable (Sample.lab1 "second take") Sample.ann_with_lab1).2
      ≠ Sample.ann_with_lab1.
Proof.
  split; [apply post_upload_never_rejects|].
  split; [do 2 eexists; split_and!; by vm_compute|].
  split_and!; try (vm_compute; reflexivity).
  intros Heq.
  apply (f_equal (λ m : gmap string object, m !! Sample.lab1_payload_key)) in Heq.
  vm_compute in Heq. discriminate Heq.
Qed.

(** ** Class codes *)

Lemma elem_of_without_code X codes c :
  c ∈ without_code (Some (JStr X)) codes ↔ c ∈ codes ∧ c ≠ JStr X.
Proof.
  unfold without_code. rewrite list_elem_of_filter, <- strict_eq_JStr.
  destruct (strict_eq _ _); intuition congruence.
Qed.

(** Filtering out a code that was just pushed onto an array without it
    gives the array back. *)
Lemma without_code_push X codes :
  JStr X ∉ codes → without_code (Some (JStr X)) (codes ++ [JStr X]) = codes.
Proof.
  intros Hnot. unfold without_code. rewrite filter_app.
  rewrite (filter_cons_False _ (JStr X)).
  - rewrite filter_nil, app_nil_r. induction codes as [|c rest IH]; [done|].
    apply not_elem_of_cons in Hnot as [Hc Hrest].
    rewrite filter_cons_True; [by rewrite IH|].
    destruct (strict_eq (Some c) (Some (JStr X))) eqn:Heq; [|done].
    by apply strict_eq_JStr in Heq.
  - simpl. by rewrite bool_decide_eq_true_2.
Qed.

Lemma without_code_app X codes more :
  without_code X (codes ++ more) = without_code X codes ++ without_code X more.
Proof. unfold without_code. apply filter_app. Qed.

Lemma stored_class_codes_insert email fields codes (b : gmap string object) :
  lookup_field "classCodesArray" fields = Some (JArr codes) →
  stored_class_codes email (<[user_key email := json_object (JObj fields)]> b)
  = Some codes.
Proof.
  intros Hcodes. unfold stored_class_codes. rewrite lookup_insert_eq. simpl.
  by rewrite Hcodes.
Qed.

Lemma stored_class_codes_lookup email fields codes o (b : gmap string object) :
  b !! user_key email = Some o → Body o = Doc (JObj fields) →
  lookup_field "classCodesArray" fields = Some (JArr codes) →
  stored_class_codes email b = Some codes.
Proof.
  intros Hb Ho Hcodes. unfold stored_class_codes. rewrite Hb.
  destruct o as [body ct]. simpl in Ho. subst body. by rewrite Hcodes.
Qed.

(** *** updateUser of the repository module *)

(** updateUser never gets to its branches: once the record is fetched,
    the text it decodes is that of the stream object, which is no JSON. *)
Lemma updateUser_run s3 email classCode action b :
  updateUser s3 email classCode action b
  = match (s3_get s3 (user_key email) b).1 with
    | Ret _ => (Throw SyntaxError, b)
    | Throw e => (Throw e, b)
    end.
Proof.
  unfold updateUser, try_catch, bind at 1.
  pose proof (read_only_s3_get s3 (user_key email) b) as Hro.
  by destruct (s3_get s3 (user_key email) b) as [[o|e] b1]; simpl in Hro; subst b1.
Qed.

Lemma updateUser_throws s3 email classCode action b :
  ∃ e, updateUser s3 email classCode action b = (Throw e, b).
Proof. rewrite updateUser_run. destruct (s3_get _ _ _).1; by eexists. Qed.

(** *** updateUser of src/db.js *)

(** The steps of the older updateUser, one after the other, on a bucket. *)
Lemma db_updateUser_steps s3 email classCode action b :
  Db.updateUser s3 email classCode action b =
    if rejects s3 (GetObject (user_key email)) then (Throw S3Error, b)
    else match b !! user_key email with
    | None => (Throw S3Error, b)
    | Some o =>
      match JSON_parse (Body o) with
      | Throw e => (Throw e, b)
      | Ret user =>
        match changed_record action classCode user with
        | Throw e => (Throw e, b)
        | Ret user' =>
          if rejects s3 (PutObject (user_key email)) then (Throw S3Error, b)
          else (Ret ("Class code "
                     +:+ (if strict_eq action (Some (JStr "add")) then "added" else "deleted")
                     +:+ " successfully!"),
                <[user_key email := json_object user']> b)
        end
      end
    end.
Proof.
  unfold Db.updateUser, try_catch, bind at 1, s3_get.
  destruct (rejects s3 (GetObject _)); [done|].
  destruct (b !! user_key email) as [o|]; [|done].
  unfold bind at 1, lift at 1.
  destruct (JSON_parse (Body o)) as [user|e]; [|done].
  unfold bind at 1, changed_record.
  destruct (strict_eq action (Some (JStr "add"))).
  - unfold lift. destruct (add_class_code user classCode) as [user'|e]; [|done].
    unfold bind, s3_put. by destruct (rejects s3 (PutObject _)).
  - destruct (strict_eq action (Some (JStr "delete"))); [|done].
    unfold lift. destruct (delete_class_code user classCode) as [user'|e]; [|done].
    unfold bind, s3_put. by destruct (rejects s3 (PutObject _)).
Qed.

Section ClassCodes.

Variable s3 : client.
Variable email : string.
Variable b : gmap string object.
Variable o : object.
Variable fields : list (string * json).
Variable codes : list json.

Hypothesis get_answers : rejects s3 (GetObject (user_key email)) = false.
Hypothesis put_answers : rejects s3 (PutObject (user_key email)) = false.
Hypothesis stored : b !! user_key email = Some o.
Hypothesis is_record : Body o = Doc (JObj fields).
Hypothesis has_codes : lookup_field "classCodesArray" fields = Some (JArr codes).

(** 'add' on a record with an array of codes: the code goes last. *)
Lemma db_updateUser_add_run classCode :
  Db.updateUser s3 email classCode (Some (JStr "add")) b
  = (Ret "Class code added successfully!",
     <[user_key email :=
         json_object (JObj (set_field "classCodesArray"
                              (JArr (codes ++ [default JNull classCode])) fields))]> b).
Proof using All.
  rewrite db_updateUser_steps, get_answers, stored, is_record. cbn [JSON_parse].
  unfold changed_record. cbn [strict_eq]. rewrite bool_decide_eq_true_2 by done.
  unfold add_class_code. cbn [prop obind]. rewrite has_codes.
  cbn [truthy negb]. rewrite has_codes. cbn [push obind].
  by rewrite put_answers.
Qed.

(** 'delete' on a record whose array has the code: every occurrence goes. *)
Lemma db_updateUser_delete_run X :
  JStr X ∈ codes →
  Db.updateUser s3 email (Some (JStr X)) (Some (JStr "delete")) b
  = (Ret "Class code deleted successfully!",
     <[user_key email :=
         json_object (JObj (set_field "classCodesArray"
                              (JArr (without_code (Some (JStr X)) codes)) fields))]> b).
Proof using All.
  intros Hin. apply array_includes_true in Hin.
  rewrite db_updateUser_steps, get_answers, stored, is_record. cbn [JSON_parse].
  unfold changed_record. cbn [strict_eq].
  rewrite (bool_decide_eq_false_2 ("delete" = "add")) by done.
  rewrite (bool_decide_eq_true_2 ("delete" = "delete")) by done.
  unfold delete_class_code. cbn [prop obind]. rewrite has_codes.
  cbn [includes obind]. rewrite Hin. cbn [negb].
  by rewrite put_answers.
Qed.

(** 'delete' of a code the array does not have is refused. *)
Lemma db_updateUser_delete_absent X :
  JStr X ∉ codes →
  Db.updateUser s3 email (Some (JStr X)) (Some (JStr "delete")) b
  = (Throw ClassCodeNotFound, b).
Proof using All.
  intros Hnot. assert (array_includes codes (Some (JStr X)) = false) as Hinc.
  { apply not_true_is_false. by rewrite array_includes_true. }
  rewrite db_updateUser_steps, get_answers, stored, is_record. cbn [JSON_parse].
  unfold changed_record. cbn [strict_eq].
  rewrite (bool_decide_eq_false_2 ("delete" = "add")) by done.
  rewrite (bool_decide_eq_true_2 ("delete" = "delete")) by done.
  unfold delete_class_code. cbn [prop obind]. rewrite has_codes.
  cbn [includes obind]. by rewrite Hinc.
Qed.

End ClassCodes.

(** C10, on the code: updateUser of the repository module never updates.
    It decodes the record with Body.toString(), and the body this client
    hands back is a stream, whose text is that of any object: JSON.parse
    throws on every fetched record, before the branch on the action, and
    nothing is written.  Ann, who is in class 7A, adds 8B: the call throws
    and her codes are as they were.  The older copy of the function, whose
    client hands back a buffer, appends the code as the claim says. *)
Theorem updateUser_never_updates :
  (∀ s3 email classCode action b,
     (updateUser s3 email classCode action b).2 = b
     ∧ ∃ e, (updateUser s3 email classCode action b).1 = Throw e
            ∧ (∀ o, (s3_get s3 (user_key email) b).1 = Ret o → e = SyntaxError))
  ∧ updateUser Sample.reliable "a@b.com" (Some (JStr "8B")) (Some (JStr "add"))
      (Sample.with_user Sample.ann ∅)
    = (Throw SyntaxError, Sample.with_user Sample.ann ∅)
  ∧ stored_class_codes "a@b.com" (Sample.with_user Sample.ann ∅) = Some [JStr "7A"]
  ∧ (Db.updateUser Sample.reliable "a@b.com" (Some (JStr "8B")) (Some (JStr "add"))
       (Sample.with_user Sample.ann ∅)).1
    = Ret "Class code added successfully!"
  ∧ stored_class_codes "a@b.com"
      (Db.updateUser Sample.reliable "a@b.com" (Some (JStr "8B")) (Some (JStr "add"))
         (Sample.with_user Sample.ann ∅)).2
    = Some [JStr "7A"; JStr "8B"].
Proof.
  split_and!.
  - intros s3 email classCode action b. rewrite updateUser_run.
    destruct (s3_get s3 (user_key email) b).1 as [o|e] eqn:Hget.
    + split; [done|]. by exists SyntaxError.
    + split; [done|]. exists e. split; [done|]. by intros o [=].
  - rewrite updateUser_run. reflexivity.
  - vm_compute; reflexivity.
  - vm_compute; reflexivity.
  - vm_compute; reflexivity.
Qed.

(** C8, as the code has it.  In src/db.js, when the stored record has an
    array of class codes that does not hold X yet, 'add' of X followed by
    'delete' of X succeeds and leaves the array, and the whole record, as
    it was.  In the repository module the two calls write nothing, so the
    array is as it was after them too. *)
Theorem updateUser_add_delete_round_trip s3 email X b o fields codes :
  rejects s3 (GetObject (user_key email)) = false →
  rejects s3 (PutObject (user_key email)) = false →
  b !! user_key email = Some o →
  Body o = Doc (JObj fields) →
  lookup_field "classCodesArray" fields = Some (JArr codes) →
  JStr X ∉ codes →
  (∃ b1 b2,
     Db.updateUser s3 email (Some (JStr X)) (Some (JStr "add")) b
       = (Ret "Class code added successfully!", b1)
     ∧ Db.updateUser s3 email (Some (JStr X)) (Some (JStr "delete")) b1
       = (Ret "Class code deleted successfully!", b2)
     ∧ stored_class_codes email b = Some codes
     ∧ stored_class_codes email b2 = Some codes
     ∧ Body <$> b2 !! user_key email = Some (Doc (JObj fields)))
  ∧ stored_class_codes email
      (updateUser s3 email (Some (JStr X)) (Some (JStr "delete"))
         (updateUser s3 email (Some (JStr X)) (Some (JStr "add")) b).2).2
    = Some codes.
Proof.
  intros Hget Hput Hb Ho Hcodes Hnot.
  set (fields1 := set_field "classCodesArray" (JArr (codes ++ [JStr X])) fields).
  set (b1 := <[user_key email := json_object (JObj fields1)]> b).
  assert (set_field "classCodesArray"
            (JArr (without_code (Some (JStr X)) (codes ++ [JStr X]))) fields1
          = fields) as Hback.
  { unfold fields1. rewrite set_field_twice, without_code_push by done.
    by apply set_field_id. }
  split.
  - eexists b1, _. split_and!.
    + by apply (db_updateUser_add_run s3 email b o fields codes).
    + apply (db_updateUser_delete_run s3 email b1 (json_object (JObj fields1)) fields1
               (codes ++ [JStr X])); try done.
      * apply lookup_insert_eq.
      * apply lookup_set_field_eq.
      * apply elem_of_app. right. left.
    + by eapply stored_class_codes_lookup.
    + rewrite Hback. by apply stored_class_codes_insert.
    + by rewrite Hback, lookup_insert_eq.
  - destruct (updateUser_throws s3 email (Some (JStr X)) (Some (JStr "add")) b)
      as [e1 ->]. cbn [snd].
    destruct (updateUser_throws s3 email (Some (JStr X)) (Some (JStr "delete")) b)
      as [e2 ->]. cbn [snd].
    by eapply stored_class_codes_lookup.
Qed.

(** Ann, who is in class 7A, adds 8B and then deletes it. *)
Lemma updateUser_add_delete_round_trip_witness :
  (JStr "8B" ∉ [JStr "7A"])
  ∧ ∃ b1 b2,
      Db.updateUser Sample.reliable "a@b.com" (Some (JStr "8B")) (Some (JStr "add"))
        (Sample.with_user Sample.ann ∅)
        = (Ret "Class code added successfully!", b1)
      ∧ Db.updateUser Sample.reliable "a@b.com" (Some (JStr "8B")) (Some (JStr "delete")) b1
        = (Ret "Class code deleted successfully!", b2)
      ∧ stored_class_codes "a@b.com" (Sample.with_user Sample.ann ∅) = Some [JStr "7A"]
      ∧ stored_class_codes "a@b.com" b2 = Some [JStr "7A"].
Proof.
  assert (JStr "8B" ∉ [JStr "7A"]) as Hnot.
  { intros Hin. apply list_elem_of_singleton in Hin. discriminate Hin. }
  split; [exact Hnot|].
  assert (Sample.with_user Sample.ann ∅ !! user_key "a@b.com"
          = Some (json_object (user_json Sample.ann))) as Hstored
    by (vm_compute; reflexivity).
  destruct (updateUser_add_delete_round_trip Sample.reliable "a@b.com" "8B"
              (Sample.with_user Sample.ann ∅) (json_object (user_json Sample.ann))
              _ [JStr "7A"] eq_refl eq_refl Hstored eq_refl eq_refl Hnot)
    as [(b1 & b2 & Hadd & Hdel & Hbefore & Hafter & _) _].
  exists b1, b2. split_and!; [exact Hadd | exact Hdel | exact Hbefore | exact Hafter].
Defined.

(** C8 as stated fails, in src/db.js: Ann is in class 7A; after 'add' of
    7A and 'delete' of 7A, both accepted, her array of class codes is
    empty. *)
Lemma updateUser_round_trip_counterexample :
  stored_class_codes "a@b.com" (Sample.with_user Sample.ann ∅) = Some [JStr "7A"]
  ∧ (Db.updateUser Sample.reliable "a@b.com" (Some (JStr "7A")) (Some (JStr "add"))
       (Sample.with_user Sample.ann ∅)).1
    = Ret "Class code added successfully!"
  ∧ (Db.updateUser Sample.reliable "a@b.com" (Some (JStr "7A")) (Some (JStr "delete"))
       (Db.updateUser Sample.reliable "a@b.com" (Some (JStr "7A")) (Some (JStr "add"))
          (Sample.with_user Sample.ann ∅)).2).1
    = Ret "Class code deleted successfully!"
  ∧ stored_class_codes "a@b.com"
      (Db.updateUser Sample.reliable "a@b.com" (Some (JStr "7A")) (Some (JStr "delete"))
         (Db.updateUser Sample.reliable "a@b.com" (Some (JStr "7A")) (Some (JStr "add"))
            (Sample.with_user Sample.ann ∅)).2).2
    = Some []
  ∧ stored_class_codes "a@b.com"
      (Db.updateUser Sample.reliable "a@b.com" (Some (JStr "7A")) (Some (JStr "delete"))
         (Db.updateUser Sample.reliable "a@b.com" (Some (JStr "7A")) (Some (JStr "add"))
            (Sample.with_user Sample.ann ∅)).2).2
    ≠ stored_class_codes "a@b.com" (Sample.with_user Sample.ann ∅).
Proof. split_and!; by vm_compute. Qed.

(* ================================================================== *)
(** * Part III: further properties of the repository and its callers *)
(* ================================================================== *)

(** ** Registration, further *)

(** The names under which the table of allowed keys has an array. *)
Lemma validLicenseKeys_Some name keys :
  validLicenseKeys name = Some keys → name = "student" ∨ name = "teacher".
Proof. unfold validLicenseKeys. repeat case_bool_decide; by auto. Qed.

(** The pairs of account type and key that pass both tables. *)
Lemma registrable_pairs accountType key keys :
  validLicenseKeys accountType = Some keys →
  key ∈ keys →
  0 < licenseKeyLimit key →
  (accountType = "student" ∧ key = "STUDENT_KEY_1")
  ∨ (accountType = "teacher" ∧ key = "TEACHER_KEY_2").
Proof.
  unfold validLicenseKeys. intros Hkeys Hin Hlim.
  repeat case_bool_decide; simplify_eq;
    repeat (apply elem_of_cons in Hin as [->|Hin]);
    try (by apply elem_of_nil in Hin);
    try (vm_compute in Hlim; lia); auto.
Qed.



(** X2: createUser returns only for an account type that names the
    property student, with the key STUDENT_KEY_1, or that names teacher,
    with TEACHER_KEY_2: the other keys are in no allowed set or have no
    limit. *)
Theorem createUser_only_two_pairs s3 u b u' b' :
  createUser s3 u b = (Ret u', b') →
  (tpl (UserData.accountType u) = "student"
   ∧ UserData.licenseKey u = Some (JStr "STUDENT_KEY_1"))
  ∨ (tpl (UserData.accountType u) = "teacher"
     ∧ UserData.licenseKey u = Some (JStr "TEACHER_KEY_2")).
Proof.
  intros Hrun. apply createUser_ret_inv in Hrun
    as (_ & _ & _ & _ & keys & key & Hkeys & -> & Hin & Hlt).
  destruct (registrable_pairs _ key keys Hkeys Hin) as [[-> ->]|[-> ->]]; [lia|auto..].
Qed.

(** Ann's registration is of the first pair. *)
Lemma createUser_only_two_pairs_witness :
  (createUser Sample.reliable Sample.ann ∅).1 = Ret Sample.ann
  ∧ ((tpl (UserData.accountType Sample.ann) = "student"
      ∧ UserData.licenseKey Sample.ann = Some (JStr "STUDENT_KEY_1"))
     ∨ (tpl (UserData.accountType Sample.ann) = "teacher"
        ∧ UserData.licenseKey Sample.ann = Some (JStr "TEACHER_KEY_2"))).
Proof.
  assert (createUser Sample.reliable Sample.ann ∅
          = (Ret Sample.ann, Sample.with_user Sample.ann ∅)) as Hrun
    by (vm_compute; reflexivity).
  split; [by rewrite Hrun|].
  exact (createUser_only_two_pairs Sample.reliable Sample.ann ∅ _ _ Hrun).
Defined.

(** X3: A registration that goes through adds one to the number of stored
    users of its key when the email had no record, and changes the
    number for no other key. *)
Theorem createUser_counts_one_more s3 u b u' b' :
  createUser s3 u b = (Ret u', b') →
  b !! user_key (tpl (UserData.email u)) = None →
  ∃ key,
    UserData.licenseKey u = Some (JStr key)
    ∧ registered_count key b' = S (registered_count key b)
    ∧ ∀ k, k ≠ key → registered_count k b' = registered_count k b.
Proof.
  intros Hrun Hnew. apply createUser_ret_inv in Hrun
    as (_ & -> & _ & _ & keys & key & _ & Hkey & _).
  exists key. split; [done|]. split.
  - rewrite registered_count_insert_fresh, counts_for_user, Hkey by done.
    simpl. by rewrite bool_decide_eq_true_2.
  - intros k Hk. rewrite registered_count_insert_fresh, counts_for_user, Hkey by done.
    simpl. by rewrite bool_decide_eq_false_2.
Qed.

(** Ann is the first holder of her key. *)
Lemma createUser_counts_one_more_witness :
  registered_count "STUDENT_KEY_1" (Sample.with_user Sample.ann ∅) = 1
  ∧ registered_count "TEACHER_KEY_2" (Sample.with_user Sample.ann ∅) = 0.
Proof.
  assert (createUser Sample.reliable Sample.ann ∅
          = (Ret Sample.ann, Sample.with_user Sample.ann ∅)) as Hrun
    by (vm_compute; reflexivity).
  destruct (createUser_counts_one_more Sample.reliable Sample.ann ∅ _ _ Hrun eq_refl)
    as (key & Hkey & Hown & Hother).
  injection Hkey as <-.
  split; [exact Hown|]. apply (Hother "TEACHER_KEY_2"). discriminate.
Defined.

(** X4: While users/ holds no more objects than one listing shows, createUser
    keeps the limits: if no license key has more stored users than its
    limit allows, that is still so after the call, whether it returned or
    threw. *)
Theorem createUser_keeps_limits s3 u b :
  (length (keys_under "users/" b) ≤ MaxKeys)%nat →
  (∀ k, registered_count k b ≤ licenseKeyLimit k)%nat →
  ∀ k, (registered_count k (createUser s3 u b).2 ≤ licenseKeyLimit k)%nat.
Proof.
  intros Hfew Hinv k.
  destruct (createUser_cases s3 u b) as [Hrun|Hrun]; rewrite Hrun; [|apply Hinv].
  apply createUser_ret_inv in Hrun as (_ & _ & _ & _ & keys & key & _ & Hkey & _ & Hlt).
  rewrite listed_count_all in Hlt by done. simpl.
  rewrite registered_count_insert, counts_for_user, Hkey. simpl.
  pose proof (registered_count_delete_le k (user_key (tpl (UserData.email u))) b) as Hdel.
  specialize (Hinv k). case_bool_decide; subst; lia.
Qed.

(** From the empty bucket on, no key is over its limit. *)
Lemma createUser_keeps_limits_witness :
  (registered_count "STUDENT_KEY_1" (createUser Sample.reliable Sample.ann ∅).2
   ≤ licenseKeyLimit "STUDENT_KEY_1")%nat.
Proof.
  apply (createUser_keeps_limits Sample.reliable Sample.ann ∅).
  - apply Nat.le_0_l.
  - intros k. apply Nat.le_0_l.
Defined.

(** ** Reading users *)

(** A record read_user_record returns was read from an object that passes
    the validation, by a read the service answered. *)
Lemma read_user_record_ret_valid s3 key b j :
  (read_user_record s3 key b).1 = Ret j →
  rejects s3 (GetObject key) = false
  ∧ ∃ o, b !! key = Some o ∧ Body o = Doc j ∧ valid_user_object o = true.
Proof.
  unfold read_user_record, bind, s3_get, lift, throw, ret.
  destruct (rejects s3 _); [done|].
  destruct (b !! key) as [o|]; [|done]. simpl.
  destruct o as [[doc|bytes] ct] eqn:Ho; simpl; [|done].
  destruct (missing_required doc) as [bad|e] eqn:Hreq; [|done].
  destruct bad; [done|]. intros [= ->]. split; [done|].
  eexists. split_and!; try done. unfold valid_user_object. simpl. by rewrite Hreq.
Qed.

Lemma read_user_record_valid s3 key b o :
  rejects s3 (GetObject key) = false →
  b !! key = Some o →
  valid_user_object o = true →
  read_user_record s3 key b = (Ret (stored_doc b key), b).
Proof.
  intros Hget Hb Hvalid. unfold read_user_record, bind, s3_get, lift, stored_doc.
  rewrite Hget, Hb. unfold valid_user_object in Hvalid.
  destruct o as [[doc|bytes] ct]; simpl in *; [|done].
  destruct (missing_required doc) as [[]|]; done.
Qed.

Lemma read_user_record_invalid s3 key b o :
  b !! key = Some o →
  valid_user_object o = false →
  ∃ e, read_user_record s3 key b = (Throw e, b).
Proof.
  intros Hb Hvalid. unfold read_user_record, bind, s3_get, lift, throw.
  destruct (rejects s3 _); [by eexists|]. rewrite Hb.
  unfold valid_user_object in Hvalid.
  destruct o as [[doc|bytes] ct]; simpl in *; [|by eexists].
  destruct (missing_required doc) as [[]|]; try done; by eexists.
Qed.

(** A record that passes the validation is an object. *)
Lemma valid_user_object_fields o :
  valid_user_object o = true → ∃ fields, Body o = Doc (JObj fields).
Proof.
  unfold valid_user_object. destruct (Body o) as [doc|]; [|done].
  destruct doc; try done. by eexists.
Qed.

(** One object among those a listing of users/ shows that is not a valid
    record makes listUsers throw. *)
Lemma listUsers_throws_on_invalid s3 b key o :
  key ∈ listed "users/" b →
  b !! key = Some o →
  valid_user_object o = false →
  ∃ e, listUsers s3 b = (Throw e, b).
Proof.
  intros Hin Hb Hvalid.
  assert (∃ e, (listUsers s3 b).1 = Throw e) as [e He].
  { unfold listUsers, try_catch, bind, s3_list, throw.
    destruct (rejects s3 _); [by eexists|].
    destruct (read_user_record_invalid s3 key b o Hb Hvalid) as [e He].
    destruct (promise_all_throw (read_user_record s3) (listed "users/" b) b key e)
      as [e' He']; [apply read_only_read_user_record|done|by rewrite He|].
    destruct (listed "users/" b) as [|k rest]; [by apply elem_of_nil in Hin|].
    exists e'. by destruct (promise_all _ _ _) as [[us|e2] b2]; simpl in *; simplify_eq. }
  exists e. rewrite (read_only_run _ _ (read_only_listUsers s3)). by rewrite He.
Qed.

(** X5: listUsers sees the keys of one answer to its listing of users/, at
    most a thousand.  It returns exactly when the listing is answered and
    every object under these keys is read and passes the validation; it
    then gives the stored records of these keys, in the order of the keys.
    One unreadable or invalid object among them fails the whole
    listing; an object beyond them is not looked at. *)
Theorem listUsers_returns_iff s3 b :
  let all_valid :=
    rejects s3 (ListObjectsV2 "users/") = false
    ∧ ∀ key o, key ∈ listed "users/" b → b !! key = Some o →
        rejects s3 (GetObject key) = false ∧ valid_user_object o = true in
  (all_valid →
   listUsers s3 b = (Ret (stored_doc b <$> listed "users/" b), b))
  ∧ (∀ users, (listUsers s3 b).1 = Ret users →
       all_valid ∧ users = stored_doc b <$> listed "users/" b
       ∧ (length users ≤ MaxKeys)%nat)
  ∧ (listUsers s3 b).2 = b.
Proof.
  intros all_valid. subst all_valid. split_and!.
  - intros [Hlist Hall]. unfold listUsers, try_catch, bind, s3_list. rewrite Hlist.
    assert (promise_all (read_user_record s3) (listed "users/" b) b
            = (Ret (stored_doc b <$> listed "users/" b), b)) as Hpa.
    { apply promise_all_map; [intros ?; apply read_only_read_user_record|].
      apply Forall_forall. intros key Hin.
      destruct (elem_of_listed _ _ _ Hin) as [_ [o Ho]].
      destruct (Hall key o Hin Ho) as [Hget Hvalid].
      by rewrite (read_user_record_valid s3 key b o). }
    destruct (listed "users/" b); [done|]. by rewrite Hpa.
  - intros users Hrun.
    assert (rejects s3 (ListObjectsV2 "users/") = false
            ∧ Forall2 (λ key j, (read_user_record s3 key b).1 = Ret j)
                      (listed "users/" b) users) as [Hlist Hall].
    { revert Hrun. unfold listUsers, try_catch, bind, s3_list, ret, throw.
      destruct (rejects s3 _); [done|].
      destruct (listed "users/" b) as [|k rest] eqn:Hkeys.
      - intros [= <-]. split; [done|constructor].
      - intros Hrun. split; [done|].
        apply promise_all_ret; [apply read_only_read_user_record|].
        by destruct (promise_all _ _ _) as [[us|e] b1]; simpl in *; simplify_eq. }
    split_and!; [done| | |].
    + intros key o Hin Ho.
      destruct (Forall2_elem_of_l _ _ _ _ Hall Hin) as (j & _ & Hj).
      apply read_user_record_ret_valid in Hj as (Hget & o' & Ho' & _ & Hvalid).
      by simplify_eq.
    + clear Hrun. induction Hall as [|key j keys users Hj _ IH]; [done|].
      rewrite fmap_cons, IH. f_equal.
      apply read_user_record_ret_valid in Hj as (_ & o & Ho & Hbody & _).
      unfold stored_doc. rewrite Ho. destruct o as [body ct]. simpl in Hbody. by subst.
    + rewrite <- (Forall2_length _ _ _ Hall). unfold listed.
      rewrite length_take. lia.
  - apply read_only_listUsers.
Qed.

(** The validation of a record as createUser stores it. *)
Lemma missing_required_user_json u :
  missing_required (user_json u)
  = Ret (negb (truthy (UserData.email u))
         || negb (truthy (UserData.firstName u))
         || negb (truthy (UserData.accountType u))).
Proof.
  unfold missing_required.
  rewrite (user_json_lookup u "email" (UserData.email u)) by (right; left).
  rewrite (user_json_lookup u "firstName" (UserData.firstName u)) by left.
  rewrite (user_json_lookup u "accountType" (UserData.accountType u))
    by (do 5 right; left).
  cbn [obind].
  by destruct (truthy (UserData.email u)), (truthy (UserData.firstName u)),
       (truthy (UserData.accountType u)).
Qed.

(** When listUsers throws, createUser fails. *)
Lemma createUser_needs_listing s3 u b e :
  listUsers s3 b = (Throw e, b) → createUser s3 u b = (Throw RegistrationFailed, b).
Proof.
  intros He. destruct (createUser_cases s3 u b) as [Hrun|Hrun]; [|done].
  apply createUser_ret_inv in Hrun as (_ & _ & _ & (users & Hus) & _).
  by rewrite He in Hus.
Qed.

(** X6: While one of the objects a listing of users/ shows is not a valid
    record, listUsers throws and no registration goes through, whatever
    the user, its key and its account type. *)
Theorem invalid_record_blocks_registration s3 b key o :
  key ∈ listed "users/" b →
  b !! key = Some o →
  valid_user_object o = false →
  (∃ e, listUsers s3 b = (Throw e, b))
  ∧ ∀ u, createUser s3 u b = (Throw RegistrationFailed, b).
Proof.
  intros Hin Hb Hvalid.
  destruct (listUsers_throws_on_invalid s3 b key o Hin Hb Hvalid) as [e He].
  split; [by exists e|]. intros u. by eapply createUser_needs_listing.
Qed.

(** A text file under users/ stops Ann's registration. *)
Lemma invalid_record_blocks_registration_witness :
  (∃ e, listUsers Sample.reliable Cases.with_stray_file
        = (Throw e, Cases.with_stray_file))
  ∧ createUser Sample.reliable Sample.ann Cases.with_stray_file
    = (Throw RegistrationFailed, Cases.with_stray_file).
Proof.
  assert ("users/notes.txt" ∈ listed "users/" Cases.with_stray_file) as Hin
    by (vm_compute; left).
  assert (Cases.with_stray_file !! "users/notes.txt"
          = Some {| Body := Raw "to do"; ContentType := "text/plain" |}) as Hstored
    by (vm_compute; reflexivity).
  destruct (invalid_record_blocks_registration Sample.reliable Cases.with_stray_file
              "users/notes.txt" _ Hin Hstored eq_refl) as [Hlist Hcreate].
  split; [exact Hlist | exact (Hcreate Sample.ann)].
Defined.

(** X7: createUser does not look at the first name: a registration without
    one, or with an empty one, goes through like any other, and the record
    it stores, while a listing of users/ shows it, stops every later
    registration. *)
Theorem createUser_empty_firstName_blocks_later s3 u b u' b' :
  createUser s3 u b = (Ret u', b') →
  truthy (UserData.firstName u) = false →
  user_key (tpl (UserData.email u)) ∈ listed "users/" b' →
  ∀ u2, createUser s3 u2 b' = (Throw RegistrationFailed, b').
Proof.
  intros Hrun Hname Hin u2. apply createUser_ret_inv in Hrun as (_ & -> & _).
  destruct (listUsers_throws_on_invalid s3
              (<[user_key (tpl (UserData.email u)) := json_object (user_json u)]> b)
              (user_key (tpl (UserData.email u))) (json_object (user_json u)))
    as [e He].
  - done.
  - apply lookup_insert_eq.
  - unfold valid_user_object. simpl. rewrite missing_required_user_json, Hname.
    by rewrite orb_true_r.
  - by eapply createUser_needs_listing.
Qed.

(** A registration without a first name goes through, and Ann's, after
    it, does not. *)
Lemma createUser_empty_firstName_blocks_later_witness :
  createUser Sample.reliable Cases.nameless ∅
  = (Ret Cases.nameless, Sample.with_user Cases.nameless ∅)
  ∧ createUser Sample.reliable Sample.ann (Sample.with_user Cases.nameless ∅)
    = (Throw RegistrationFailed, Sample.with_user Cases.nameless ∅).
Proof.
  assert (createUser Sample.reliable Cases.nameless ∅
          = (Ret Cases.nameless, Sample.with_user Cases.nameless ∅)) as Hrun
    by (vm_compute; reflexivity).
  assert (user_key (tpl (UserData.email Cases.nameless))
          ∈ listed "users/" (Sample.with_user Cases.nameless ∅)) as Hin
    by (vm_compute; left).
  split; [exact Hrun|].
  exact (createUser_empty_firstName_blocks_later Sample.reliable Cases.nameless ∅ _ _
           Hrun eq_refl Hin Sample.ann).
Defined.

(** ** readUser *)

(** readUser on a stored valid record. *)
Lemma readUser_found s3 email b o :
  rejects s3 (GetObject (user_key email)) = false →
  b !! user_key email = Some o →
  valid_user_object o = true →
  readUser s3 email b = (Ret (stored_doc b (user_key email), []), b).
Proof.
  intros Hget Hb Hvalid.
  destruct (valid_user_object_fields o Hvalid) as [fields Hfields].
  assert (stored_doc b (user_key email) = JObj fields) as Hdoc.
  { unfold stored_doc. rewrite Hb. destruct o. simpl in Hfields. by subst. }
  unfold readUser, try_catch, bind at 1.
  rewrite (read_user_record_valid s3 _ b o) by done. rewrite Hdoc.
  repeat (unfold bind at 1, lift at 1; cbn [prop]).
  unfold bind. by rewrite listVideos_nil.
Qed.

(** readUser on a key without a valid record the service returns. *)
Lemma readUser_not_found s3 email b :
  (∀ o, existing_user s3 email b = Some o → valid_user_object o = false) →
  readUser s3 email b = (Throw UserNotFound, b).
Proof.
  intros Hnone. unfold readUser, try_catch, bind at 1.
  pose proof (read_only_read_user_record s3 (user_key email) b) as Hro.
  destruct (read_user_record s3 (user_key email) b) as [[j|e] b1] eqn:Hrec;
    simpl in Hro; subst b1; [|done].
  assert ((read_user_record s3 (user_key email) b).1 = Ret j) as Hj by (by rewrite Hrec).
  apply read_user_record_ret_valid in Hj as (Hget & o & Ho & _ & Hvalid).
  rewrite Hnone in Hvalid; [done|]. unfold existing_user. by rewrite Hget.
Qed.

(** X8: readUser returns exactly when the service hands back a record for the
    email that passes the validation; it then returns the stored record
    and leaves the bucket alone.  In every other case, a missing record
    as much as a refused read or a malformed one, it throws the same
    user-not-found error. *)
Theorem readUser_outcomes s3 email b :
  (readUser s3 email b).2 = b
  ∧ (∀ r, (readUser s3 email b).1 = Ret r →
       r.1 = stored_doc b (user_key email)
       ∧ ∃ o, existing_user s3 email b = Some o ∧ valid_user_object o = true)
  ∧ (∀ o, existing_user s3 email b = Some o → valid_user_object o = true →
       ∃ videos, (readUser s3 email b).1
                 = Ret (stored_doc b (user_key email), videos))
  ∧ (∀ e, (readUser s3 email b).1 = Throw e → e = UserNotFound)
  ∧ (b !! user_key email = None → (readUser s3 email b).1 = Throw UserNotFound).
Proof.
  assert (∀ o, existing_user s3 email b = Some o → valid_user_object o = true →
            readUser s3 email b
            = (Ret (stored_doc b (user_key email), []), b)) as Hfound.
  { intros o Hex Hvalid. unfold existing_user in Hex.
    destruct (rejects s3 _) eqn:Hget; [done|]. by eapply readUser_found. }
  split_and!.
  - apply read_only_readUser.
  - intros r Hr.
    destruct (existing_user s3 email b) as [o|] eqn:Hex.
    + destruct (valid_user_object o) eqn:Hvalid.
      * rewrite (Hfound o eq_refl Hvalid) in Hr. simpl in Hr. injection Hr as <-.
        split; [done|by exists o].
      * rewrite readUser_not_found in Hr; [done|]. intros o' Ho'.
        rewrite Hex in Ho'. by injection Ho' as <-.
    + rewrite readUser_not_found in Hr; [done|]. intros o' Ho'. by rewrite Hex in Ho'.
  - intros o Hex Hvalid. exists []. by rewrite (Hfound o Hex Hvalid).
  - intros e. unfold readUser, try_catch, throw.
    by destruct (bind _ _ b) as [[r|e'] b1]; simpl; intros [= <-].
  - intros Hnone. rewrite readUser_not_found; [done|]. intros o.
    unfold existing_user. rewrite Hnone. by destruct (rejects s3 _).
Qed.

(** X9: What createUser stored, readUser gives back: after a registration
    with a first name and an email, readUser of that email returns the
    record as it was registered. *)
Theorem createUser_then_readUser s3 u b u' b' :
  createUser s3 u b = (Ret u', b') →
  rejects s3 (GetObject (user_key (tpl (UserData.email u)))) = false →
  truthy (UserData.firstName u) = true →
  truthy (UserData.email u) = true →
  ∃ videos,
    readUser s3 (tpl (UserData.email u)) b' = (Ret (user_json u, videos), b').
Proof.
  intros Hrun Hget Hname Hemail.
  apply createUser_ret_inv in Hrun as (_ & -> & _ & _ & keys & key & Hkeys & _).
  apply validLicenseKeys_Some, account_type_truthy in Hkeys.
  set (b' := <[user_key (tpl (UserData.email u)) := json_object (user_json u)]> b).
  exists []. rewrite (readUser_found s3 _ b' (json_object (user_json u)));
    [|done|apply lookup_insert_eq|].
  - unfold stored_doc, b'. by rewrite lookup_insert_eq.
  - unfold valid_user_object. simpl. rewrite missing_required_user_json.
    by rewrite Hname, Hemail, Hkeys.
Qed.

(** Ann registers and is read back. *)
Lemma createUser_then_readUser_witness :
  ∃ videos,
    readUser Sample.reliable "a@b.com" (Sample.with_user Sample.ann ∅)
    = (Ret (user_json Sample.ann, videos), Sample.with_user Sample.ann ∅).
Proof.
  assert (createUser Sample.reliable Sample.ann ∅
          = (Ret Sample.ann, Sample.with_user Sample.ann ∅)) as Hrun
    by (vm_compute; reflexivity).
  exact (createUser_then_readUser Sample.reliable Sample.ann ∅ _ _ Hrun
           eq_refl eq_refl eq_refl).
Defined.

(** ** updateUser, further *)

(** X10: updateUser writes nothing when it throws, never touches another key
    than the user's, and leaves every property of the record but
    classCodesArray as it was. *)
Theorem updateUser_keeps_rest s3 email classCode action b :
  (∀ e, (updateUser s3 email classCode action b).1 = Throw e →
        (updateUser s3 email classCode action b).2 = b)
  ∧ (∀ key, key ≠ user_key email →
        (updateUser s3 email classCode action b).2 !! key = b !! key)
  ∧ (∀ f, f ≠ "classCodesArray" →
        prop f (Some (stored_doc (updateUser s3 email classCode action b).2 (user_key email)))
        = prop f (Some (stored_doc b (user_key email)))).
Proof.
  by destruct (updateUser_throws s3 email classCode action b) as [e ->].
Qed.

(** X11: updateUser changes for no license key the number of stored users
    that hold it. *)
Theorem updateUser_keeps_counts s3 email classCode action b k :
  registered_count k (updateUser s3 email classCode action b).2 = registered_count k b.
Proof.
  by destruct (updateUser_throws s3 email classCode action b) as [e ->].
Qed.

(** ** updateUser of src/db.js, further *)

(** The record written back is the array read, or an object with the
    properties of the object read, but for classCodesArray. *)
Lemma changed_record_shape action classCode user user' :
  changed_record action classCode user = Ret user' →
  (∃ items, user = JArr items ∧ user' = JArr items)
  ∨ (∃ fields fields', user = JObj fields ∧ user' = JObj fields'
       ∧ ∀ f, f ≠ "classCodesArray" → lookup_field f fields' = lookup_field f fields).
Proof.
  intros Hchange. unfold changed_record in Hchange.
  destruct (strict_eq action (Some (JStr "add"))).
  - unfold add_class_code in Hchange.
    destruct user as [| | | |items|fields]; simpl in Hchange; try done.
    + left. exists items. by simplify_eq.
    + destruct (push _ classCode) as [items|]; simpl in Hchange; [|done].
      simplify_eq. right. do 2 eexists. split_and!; [done..|].
      intros f Hf. rewrite lookup_set_field_ne by done.
      destruct (negb _); [|done]. by rewrite lookup_set_field_ne.
  - destruct (strict_eq action (Some (JStr "delete"))); [|done].
    unfold delete_class_code in Hchange.
    destruct user as [| | | |items|fields]; simpl in Hchange; try done.
    destruct (lookup_field "classCodesArray" fields) as [[]|]; simpl in Hchange; try done.
    + destruct (str_includes _ _); by simpl in Hchange.
    + destruct (array_includes _ _); simpl in Hchange; [|done].
      simplify_eq. right. do 2 eexists. split_and!; [done..|].
      intros f Hf. by rewrite lookup_set_field_ne.
Qed.

Lemma changed_record_keeps_rest action classCode user user' f :
  changed_record action classCode user = Ret user' →
  f ≠ "classCodesArray" →
  prop f (Some user') = prop f (Some user).
Proof.
  intros [(items & -> & ->)|(fields & fields' & -> & -> & Hsame)]%changed_record_shape Hf;
    [done|]. simpl. by rewrite Hsame.
Qed.

Lemma changed_record_holds_license action classCode user user' k ct ct' :
  changed_record action classCode user = Ret user' →
  holds_license k {| Body := Doc user'; ContentType := ct' |}
  = holds_license k {| Body := Doc user; ContentType := ct |}.
Proof.
  intros [(items & -> & ->)|(fields & fields' & -> & -> & Hsame)]%changed_record_shape;
    [done|]. unfold holds_license. simpl. by rewrite Hsame.
Qed.

(** X17: updateUser of src/db.js writes nothing when it throws, never touches
    another key than the user's, and leaves every property of the record
    but classCodesArray as it was. *)
Theorem db_updateUser_keeps_rest s3 email classCode action b :
  (∀ e, (Db.updateUser s3 email classCode action b).1 = Throw e →
        (Db.updateUser s3 email classCode action b).2 = b)
  ∧ (∀ key, key ≠ user_key email →
        (Db.updateUser s3 email classCode action b).2 !! key = b !! key)
  ∧ (∀ f, f ≠ "classCodesArray" →
        prop f (Some (stored_doc (Db.updateUser s3 email classCode action b).2
                        (user_key email)))
        = prop f (Some (stored_doc b (user_key email)))).
Proof.
  rewrite db_updateUser_steps.
  destruct (rejects s3 (GetObject _)); [done|].
  destruct (b !! user_key email) as [o|] eqn:Hb; [|done].
  destruct o as [body ct]. simpl.
  destruct (JSON_parse body) as [user|e] eqn:Hparse; [|done].
  destruct (changed_record action classCode user) as [user'|e] eqn:Hchange; [|done].
  destruct (rejects s3 (PutObject _)); [done|]. simpl.
  split_and!; [done| |].
  - intros key Hkey. by rewrite lookup_insert_ne.
  - intros f Hf. unfold stored_doc. rewrite lookup_insert_eq, Hb. simpl.
    destruct body; simpl in Hparse; simplify_eq.
    by eapply changed_record_keeps_rest.
Qed.

(** X18: updateUser of src/db.js changes for no license key the number of
    stored users that hold it. *)
Theorem db_updateUser_keeps_counts s3 email classCode action b k :
  registered_count k (Db.updateUser s3 email classCode action b).2
  = registered_count k b.
Proof.
  rewrite db_updateUser_steps.
  destruct (rejects s3 (GetObject _)); [done|].
  destruct (b !! user_key email) as [o|] eqn:Hb; [|done].
  destruct o as [body ct]. simpl.
  destruct (JSON_parse body) as [user|e] eqn:Hparse; [|done].
  destruct (changed_record action classCode user) as [user'|e] eqn:Hchange; [|done].
  destruct (rejects s3 (PutObject _)); [done|]. simpl.
  destruct body; simpl in Hparse; simplify_eq.
  rewrite registered_count_insert, (registered_count_delete k _ _ b Hb).
  unfold counts_for, json_object, JSON_stringify.
  by rewrite (changed_record_holds_license _ _ _ _ k ct _ Hchange).
Qed.

(** X12: In src/db.js, with an action that is neither 'add' nor 'delete'
    updateUser writes nothing: it throws, the invalid-action error once
    the record was fetched and decoded. *)
Theorem updateUser_unknown_action s3 email classCode action b :
  strict_eq action (Some (JStr "add")) = false →
  strict_eq action (Some (JStr "delete")) = false →
  (∃ e, Db.updateUser s3 email classCode action b = (Throw e, b))
  ∧ (∀ o user,
       rejects s3 (GetObject (user_key email)) = false →
       b !! user_key email = Some o → Body o = Doc user →
       Db.updateUser s3 email classCode action b
       = (Throw (Error ("Invalid action. Use " +:+ quoted "add" +:+ " or "
                        +:+ quoted "delete" +:+ ".")), b)).
Proof.
  intros Hadd Hdel.
  assert (∀ user, changed_record action classCode user
                  = Throw (Error ("Invalid action. Use " +:+ quoted "add" +:+ " or "
                                  +:+ quoted "delete" +:+ "."))) as Hchange.
  { intros user. unfold changed_record. by rewrite Hadd, Hdel. }
  split.
  - rewrite db_updateUser_steps. destruct (rejects s3 _); [by eexists|].
    destruct (b !! user_key email) as [o|]; [|by eexists].
    destruct (JSON_parse (Body o)); [|by eexists]. rewrite Hchange. by eexists.
  - intros o user Hget Hb Hbody. rewrite db_updateUser_steps, Hget, Hb, Hbody. simpl.
    by rewrite Hchange.
Qed.

(** Ann asks for the action 'remove'. *)
Lemma updateUser_unknown_action_witness :
  Db.updateUser Sample.reliable "a@b.com" (Some (JStr "7A")) (Some (JStr "remove"))
    (Sample.with_user Sample.ann ∅)
  = (Throw (Error ("Invalid action. Use " +:+ quoted "add" +:+ " or "
                   +:+ quoted "delete" +:+ ".")),
     Sample.with_user Sample.ann ∅).
Proof.
  assert (Sample.with_user Sample.ann ∅ !! user_key "a@b.com"
          = Some (json_object (user_json Sample.ann))) as Hstored
    by (vm_compute; reflexivity).
  destruct (updateUser_unknown_action Sample.reliable "a@b.com" (Some (JStr "7A"))
              (Some (JStr "remove")) (Sample.with_user Sample.ann ∅) eq_refl eq_refl)
    as [_ Hcause].
  exact (Hcause _ _ eq_refl Hstored eq_refl).
Defined.

(** X13: In src/db.js, deleting a class code needs the code to be in the
    array: then updateUser succeeds, otherwise it throws the
    code-not-found error and writes nothing. *)
Theorem updateUser_delete_needs_code s3 email X b o fields codes :
  rejects s3 (GetObject (user_key email)) = false →
  rejects s3 (PutObject (user_key email)) = false →
  b !! user_key email = Some o →
  Body o = Doc (JObj fields) →
  lookup_field "classCodesArray" fields = Some (JArr codes) →
  (JStr X ∈ codes →
   (Db.updateUser s3 email (Some (JStr X)) (Some (JStr "delete")) b).1
   = Ret "Class code deleted successfully!")
  ∧ (JStr X ∉ codes →
     Db.updateUser s3 email (Some (JStr X)) (Some (JStr "delete")) b
     = (Throw ClassCodeNotFound, b)).
Proof.
  intros Hget Hput Hb Ho Hcodes. split.
  - intros Hin. by rewrite (db_updateUser_delete_run s3 email b o fields codes).
  - intros Hnot. by apply (db_updateUser_delete_absent s3 email b o fields codes).
Qed.

(** Ann, who is in class 7A, deletes 8B. *)
Lemma updateUser_delete_needs_code_witness :
  Db.updateUser Sample.reliable "a@b.com" (Some (JStr "8B")) (Some (JStr "delete"))
    (Sample.with_user Sample.ann ∅)
  = (Throw ClassCodeNotFound, Sample.with_user Sample.ann ∅).
Proof.
  assert (Sample.with_user Sample.ann ∅ !! user_key "a@b.com"
          = Some (json_object (user_json Sample.ann))) as Hstored
    by (vm_compute; reflexivity).
  destruct (updateUser_delete_needs_code Sample.reliable "a@b.com" "8B"
              (Sample.with_user Sample.ann ∅) _ _ [JStr "7A"]
              eq_refl eq_refl Hstored eq_refl eq_refl) as [_ Habsent].
  apply Habsent. intros Hin. apply list_elem_of_singleton in Hin. discriminate Hin.
Defined.

(** X14: In src/db.js, 'add' on a record whose classCodesArray is missing,
    null or otherwise falsy starts the array: afterwards it holds the one
    code. *)
Theorem updateUser_add_creates_array s3 email X b o fields :
  rejects s3 (GetObject (user_key email)) = false →
  rejects s3 (PutObject (user_key email)) = false →
  b !! user_key email = Some o →
  Body o = Doc (JObj fields) →
  truthy (lookup_field "classCodesArray" fields) = false →
  (Db.updateUser s3 email (Some (JStr X)) (Some (JStr "add")) b).1
  = Ret "Class code added successfully!"
  ∧ stored_class_codes email
      (Db.updateUser s3 email (Some (JStr X)) (Some (JStr "add")) b).2
    = Some [JStr X].
Proof.
  intros Hget Hput Hb Ho Hfalsy.
  rewrite db_updateUser_steps, Hget, Hb, Ho. simpl.
  unfold changed_record. cbn [strict_eq].
  rewrite (bool_decide_eq_true_2 ("add" = "add")) by done.
  unfold add_class_code. cbn [prop obind]. rewrite Hfalsy. cbn [negb].
  rewrite lookup_set_field_eq. cbn [push obind]. rewrite Hput.
  cbn [fst snd]. split; [done|].
  apply stored_class_codes_insert. apply lookup_set_field_eq.
Qed.

(** Cy, whose record has no class codes, adds 7A. *)
Lemma updateUser_add_creates_array_witness :
  (Db.updateUser Sample.reliable "c@b.com" (Some (JStr "7A")) (Some (JStr "add"))
     Cases.bare_record).1
  = Ret "Class code added successfully!"
  ∧ stored_class_codes "c@b.com"
      (Db.updateUser Sample.reliable "c@b.com" (Some (JStr "7A")) (Some (JStr "add"))
         Cases.bare_record).2
    = Some [JStr "7A"].
Proof.
  assert (Cases.bare_record !! user_key "c@b.com"
          = Some (json_object (JObj [("email", JStr "c@b.com"); ("firstName", JStr "cy");
                                     ("accountType", JStr "teacher")]))) as Hstored
    by (vm_compute; reflexivity).
  exact (updateUser_add_creates_array Sample.reliable "c@b.com" "7A" Cases.bare_record
           _ _ eq_refl eq_refl Hstored eq_refl eq_refl).
Defined.

(** X16: In src/db.js, on a stored record with an array of class codes,
    'add' puts X at the end of the array whether or not X is already in
    it, so an X that was there is now there twice; the 'delete' that
    follows leaves the array with every X filtered out, none remaining. *)
Theorem updateUser_add_appends_delete_removes_all s3 email X b o fields codes :
  rejects s3 (GetObject (user_key email)) = false →
  rejects s3 (PutObject (user_key email)) = false →
  b !! user_key email = Some o →
  Body o = Doc (JObj fields) →
  lookup_field "classCodesArray" fields = Some (JArr codes) →
  ∃ b1 b2,
    Db.updateUser s3 email (Some (JStr X)) (Some (JStr "add")) b
      = (Ret "Class code added successfully!", b1)
    ∧ stored_class_codes email b1 = Some (codes ++ [JStr X])
    ∧ (JStr X ∈ codes → ¬ NoDup (codes ++ [JStr X]))
    ∧ Db.updateUser s3 email (Some (JStr X)) (Some (JStr "delete")) b1
      = (Ret "Class code deleted successfully!", b2)
    ∧ stored_class_codes email b2 = Some (without_code (Some (JStr X)) codes)
    ∧ JStr X ∉ without_code (Some (JStr X)) codes.
Proof.
  intros Hget Hput Hb Ho Hcodes.
  set (fields1 := set_field "classCodesArray" (JArr (codes ++ [JStr X])) fields).
  set (b1 := <[user_key email := json_object (JObj fields1)]> b).
  assert (lookup_field "classCodesArray" fields1 = Some (JArr (codes ++ [JStr X])))
    as Hcodes1 by apply lookup_set_field_eq.
  assert (without_code (Some (JStr X)) (codes ++ [JStr X])
          = without_code (Some (JStr X)) codes) as Hw.
  { rewrite without_code_app. unfold without_code at 2.
    rewrite filter_cons_False, filter_nil, app_nil_r; [done|].
    simpl. by rewrite bool_decide_eq_true_2. }
  eexists b1, _. split_and!.
  - by apply (db_updateUser_add_run s3 email b o fields codes).
  - by apply stored_class_codes_insert.
  - intros Hin Hnd. apply NoDup_app in Hnd as (_ & Hdisj & _).
    apply (Hdisj _ Hin). left.
  - apply (db_updateUser_delete_run s3 email b1 (json_object (JObj fields1)) fields1
             (codes ++ [JStr X])); try done.
    + apply lookup_insert_eq.
    + apply elem_of_app. right. left.
  - rewrite Hw. apply stored_class_codes_insert, lookup_set_field_eq.
  - rewrite elem_of_without_code. by intros [_ ?].
Qed.

(** Ann, who is in class 7A, adds 7A again and then deletes it. *)
Lemma updateUser_add_appends_delete_removes_all_witness :
  ∃ b1 b2,
    Db.updateUser Sample.reliable "a@b.com" (Some (JStr "7A")) (Some (JStr "add"))
      (Sample.with_user Sample.ann ∅)
      = (Ret "Class code added successfully!", b1)
    ∧ stored_class_codes "a@b.com" b1 = Some [JStr "7A"; JStr "7A"]
    ∧ Db.updateUser Sample.reliable "a@b.com" (Some (JStr "7A")) (Some (JStr "delete")) b1
      = (Ret "Class code deleted successfully!", b2)
    ∧ stored_class_codes "a@b.com" b2 = Some [].
Proof.
  assert (Sample.with_user Sample.ann ∅ !! user_key "a@b.com"
          = Some (json_object (user_json Sample.ann))) as Hstored
    by (vm_compute; reflexivity).
  destruct (updateUser_add_appends_delete_removes_all Sample.reliable "a@b.com" "7A"
              (Sample.with_user Sample.ann ∅) (json_object (user_json Sample.ann))
              _ [JStr "7A"] eq_refl eq_refl Hstored eq_refl eq_refl)
    as (b1 & b2 & Hadd & Hcodes1 & _ & Hdel & Hcodes2 & _).
  exists b1, b2. split_and!; [exact Hadd | exact Hcodes1 | exact Hdel | exact Hcodes2].
Defined.

(** ** deleteUser, further *)

(** X15: deleteUser asks for the deletion and reports success without looking
    whether there was a record: for an email with no record it returns
    as for any other and leaves the bucket as it is; repeating it changes
    nothing more; afterwards readUser does not find the user. *)
Theorem deleteUser_outcomes s3 email b :
  rejects s3 (DeleteObject (user_key email)) = false →
  deleteUser s3 email b = (Ret true, delete (user_key email) b)
  ∧ (b !! user_key email = None → deleteUser s3 email b = (Ret true, b))
  ∧ deleteUser s3 email (deleteUser s3 email b).2 = deleteUser s3 email b
  ∧ readUser s3 email (deleteUser s3 email b).2
    = (Throw UserNotFound, (deleteUser s3 email b).2).
Proof.
  intros Hdel. repeat (rewrite deleteUser_run, ?Hdel; cbn [fst snd]).
  split; [done|]. split; [|split].
  - intros Hnone. by rewrite delete_id.
  - by rewrite delete_delete_eq.
  - apply readUser_not_found. intros o. unfold existing_user.
    rewrite lookup_delete_eq. by case_match.
Qed.

(** Ann's account is deleted. *)
Lemma deleteUser_outcomes_witness :
  deleteUser Sample.reliable "a@b.com" (Sample.with_user Sample.ann ∅)
  = (Ret true, delete (user_key "a@b.com") (Sample.with_user Sample.ann ∅))
  ∧ readUser Sample.reliable "a@b.com"
      (deleteUser Sample.reliable "a@b.com" (Sample.with_user Sample.ann ∅)).2
    = (Throw UserNotFound,
       (deleteUser Sample.reliable "a@b.com" (Sample.with_user Sample.ann ∅)).2).
Proof.
  destruct (deleteUser_outcomes Sample.reliable "a@b.com" (Sample.with_user Sample.ann ∅)
              eq_refl) as (Hrun & _ & _ & Hread).
  split; [exact Hrun | exact Hread].
Defined.

(** ** uploadVideo *)

(** The steps of uploadVideo, one after the other, on a bucket: the
    metadata is written first (twice over), then the payload. *)
Lemma uploadVideo_steps s3 vd b :
  uploadVideo s3 vd b =
    let metadata := video_metadata vd (video_path vd) in
    if rejects s3 (PutObject (metadata_key vd))
    then (Throw (Wrapped "Failed to upload video: " S3Error), b)
    else if rejects s3 (PutObject (payload_key vd))
    then (Throw (Wrapped "Failed to upload video: " S3Error),
          <[metadata_key vd := json_object metadata]> b)
    else (Ret (undefined, metadata),
          <[payload_key vd := payload_object vd]>
            (<[metadata_key vd := json_object metadata]> b)).
Proof.
  unfold uploadVideo, try_catch, bind, s3_put, throw, ret, metadata_key, payload_key,
    payload_object.
  destruct (rejects s3 (PutObject (tpl (video_path vd) +:+ ".json"))); [done|].
  rewrite insert_insert_eq.
  by destruct (rejects s3 (PutObject (tpl (video_path vd) +:+ ".mp4"))).
Qed.

(** No list of listVideos has an element. *)
Lemma listVideos_no_element s3 ue a sc cc b vs v :
  (listVideos s3 ue a sc cc b).1 = Ret vs → v ∉ vs.
Proof. rewrite listVideos_nil. intros [= <-]. apply not_elem_of_nil. Qed.



(** X20: Only a student's upload gets a path of its own.  For any other
    account type uploadVideo writes the metadata under undefined.json and
    the payload under undefined.mp4, so that such an upload replaces the
    one before it, and its metadata is never listed. *)
Theorem uploadVideo_non_student_collides s3 vd1 vd2 b :
  strict_eq (VideoData.accountType vd1) (Some (JStr "student")) = false →
  strict_eq (VideoData.accountType vd2) (Some (JStr "student")) = false →
  metadata_key vd1 = "undefined.json"
  ∧ payload_key vd1 = "undefined.mp4"
  ∧ (never_rejects s3 →
     (uploadVideo s3 vd2 (uploadVideo s3 vd1 b).2).2 = (uploadVideo s3 vd2 b).2)
  ∧ (∀ s3' ue a sc cc b' vs v,
       (listVideos s3' ue a sc cc b').1 = Ret vs →
       v ∈ vs →
       prop "metadataKey" (Some v) ≠ Ret (Some (JStr (metadata_key vd1)))).
Proof.
  intros H1 H2.
  assert (∀ vd, strict_eq (VideoData.accountType vd) (Some (JStr "student")) = false →
                metadata_key vd = "undefined.json" ∧ payload_key vd = "undefined.mp4")
    as Hkeys.
  { intros vd Hvd. unfold metadata_key, payload_key, video_path. by rewrite Hvd. }
  destruct (Hkeys vd1 H1) as [Hm1 Hp1]. destruct (Hkeys vd2 H2) as [Hm2 Hp2].
  split_and!; [done|done| |].
  - intros Hs3. rewrite !uploadVideo_steps, !Hs3. cbn [snd].
    rewrite Hm1, Hp1, Hm2, Hp2.
    rewrite (insert_insert_ne _ "undefined.mp4" "undefined.json") by done.
    rewrite insert_insert_eq.
    rewrite (insert_insert_ne _ "undefined.json" "undefined.mp4") by done.
    by rewrite insert_insert_eq.
  - intros s3' ue a sc cc b' vs v Hrun Hv.
    by destruct (listVideos_no_element _ _ _ _ _ _ _ v Hrun).
Qed.

(** Two lectures of a teacher. *)
Lemma uploadVideo_non_student_collides_witness :
  metadata_key (Cases.lecture "Optics" "one") = "undefined.json"
  ∧ payload_key (Cases.lecture "Optics" "one") = "undefined.mp4"
  ∧ (uploadVideo Sample.reliable (Cases.lecture "Waves" "two")
       (uploadVideo Sample.reliable (Cases.lecture "Optics" "one") ∅).2).2
    = (uploadVideo Sample.reliable (Cases.lecture "Waves" "two") ∅).2.
Proof.
  destruct (uploadVideo_non_student_collides Sample.reliable
              (Cases.lecture "Optics" "one") (Cases.lecture "Waves" "two") ∅
              eq_refl eq_refl) as (Hmeta & Hpay & Hover & _).
  split; [exact Hmeta|]. split; [exact Hpay|].
  apply Hover. intros c. reflexivity.
Defined.

(** ** The upload route, further *)

(** What readUser returns is an object read from a valid record. *)
Lemma readUser_ret_inv s3 email b r b' :
  readUser s3 email b = (Ret r, b') →
  b' = b ∧ ∃ fields, r.1 = JObj fields.
Proof.
  intros Hrun. pose proof (read_only_readUser s3 email b) as Hro.
  rewrite Hrun in Hro. simpl in Hro. subst b'. split; [done|].
  destruct (existing_user s3 email b) as [o|] eqn:Hex.
  - destruct (valid_user_object o) eqn:Hvalid.
    + assert (rejects s3 (GetObject (user_key email)) = false
              ∧ b !! user_key email = Some o) as [Hget Hb].
      { unfold existing_user in Hex. by destruct (rejects s3 _). }
      rewrite (readUser_found s3 email b o Hget Hb Hvalid) in Hrun.
      injection Hrun as <-.
      destruct (valid_user_object_fields o Hvalid) as [fields Hfields].
      exists fields. unfold stored_doc. rewrite Hb. simpl. destruct o. simpl in *. by subst.
    + rewrite readUser_not_found in Hrun; [done|]. intros o' Ho'.
      rewrite Hex in Ho'. by injection Ho' as <-.
  - rewrite readUser_not_found in Hrun; [done|]. intros o' Ho'. by rewrite Hex in Ho'.
Qed.

(** X21: The upload route always answers.  Without a file it answers 400 and
    leaves the bucket alone; it never answers 404: for an email without a
    valid record, readUser throws and the answer is the 500 of the catch,
    the bucket unchanged. *)
Theorem post_upload_replies s3 req b :
  (∃ reply, (Route.post_upload s3 req b).1 = Ret reply)
  ∧ (Route.file req = None →
     Route.post_upload s3 req b = (Ret (Route.Json 400 "No video file uploaded" None), b))
  ∧ (∀ message cause,
       (Route.post_upload s3 req b).1 ≠ Ret (Route.Json 404 message cause))
  ∧ (is_Some (Route.file req) →
     (∀ o, existing_user s3 (tpl (Route.email req)) b = Some o →
           valid_user_object o = false) →
     Route.post_upload s3 req b
     = (Ret (Route.Json 500 "Failed to upload video" (Some UserNotFound)), b)).
Proof.
  split_and!.
  - unfold Route.post_upload. destruct (Route.file req); [|by eexists].
    unfold try_catch. destruct (bind _ _ b) as [[r|e] b1]; by eexists.
  - intros Hfile. unfold Route.post_upload. by rewrite Hfile.
  - intros message cause. unfold Route.post_upload.
    destruct (Route.file req) as [f|]; [|by intros [=]].
    unfold try_catch.
    match goal with |- context [match ?m b with _ => _ end] =>
      destruct (m b) as [[r|e] b1] eqn:Hrun end; [|by intros [=]].
    simpl. intros [= ->]. revert Hrun.
    unfold bind at 1. destruct (readUser s3 _ b) as [[found|e] b2] eqn:Hread; [|done].
    apply readUser_ret_inv in Hread as [-> [fields Hfields]]. rewrite Hfields.
    cbn [truthy negb].
    repeat (unfold bind at 1, lift at 1; destruct (prop _ _) as [?|?]; [|done]).
    unfold bind at 1. rewrite listVideos_without_account_type.
    unfold bind at 1, lift at 1. simpl js_find. cbv beta iota.
    rewrite bool_decide_eq_false_2 by (by intros [? ?]).
    unfold bind, ret. by destruct (uploadVideo _ _ _) as [[?|?] ?].
  - intros [f Hfile] Hnone. unfold Route.post_upload. rewrite Hfile.
    unfold try_catch, bind at 1. by rewrite readUser_not_found.
Qed.

(** ** More routes *)

(** X23: The password-reset route never resets a password: it calls
    updateUser with the password where the class code goes and with no
    action, which updateUser refuses.  Whatever the token and the new
    password, the answer is the 400 of an invalid link or the 500 of the
    catch, and the bucket is as it was. *)
Theorem post_reset_password_never_succeeds s3 validated hashed b :
  ∃ status text,
    Api.post_reset_password s3 validated hashed b = (Ret (Api.Text status text), b)
    ∧ (status = 400 ∨ status = 500).
Proof.
  unfold Api.post_reset_password, try_catch, bind at 1, lift at 1.
  destruct validated as [email|e]; [|eauto].
  destruct (negb (truthy email)); [eauto|].
  unfold bind at 1, lift at 1. destruct hashed as [h|e]; [|eauto].
  unfold bind. destruct (updateUser_throws s3 (tpl email) undefined undefined b) as [e ->].
  eauto.
Qed.

(** The class-code route, step by step. *)
Lemma put_update_user_run s3 email classCode action b :
  Api.put_update_user s3 email classCode action b =
    if negb (truthy email && truthy classCode && truthy action)
    then (Ret (Api.Message 400 "Email, class code, and action are required"), b)
    else match readUser s3 (tpl email) b with
         | (Ret _, _) =>
             match updateUser s3 (tpl email) classCode action b with
             | (Ret message, b') => (Ret (Api.Message 200 message), b')
             | (Throw _, _) => (Ret (Api.Message 500 "Code invalid"), b)
             end
         | (Throw _, _) => (Ret (Api.Message 500 "Code invalid"), b)
         end.
Proof.
  unfold Api.put_update_user.
  destruct (truthy email), (truthy classCode), (truthy action); cbn [negb orb andb];
    try done.
  unfold try_catch, bind at 1.
  destruct (readUser s3 (tpl email) b) as [[found|e] b1] eqn:Hread.
  - apply readUser_ret_inv in Hread as [-> [fields Hfields]]. rewrite Hfields.
    cbn [truthy negb]. unfold bind.
    by destruct (updateUser_throws s3 (tpl email) classCode action b) as [e ->].
  - pose proof (read_only_readUser s3 (tpl email) b) as Hro.
    rewrite Hread in Hro. simpl in Hro. by subst b1.
Qed.

(** X24: The class-code route.  It always answers; it answers 400 exactly when
    one of email, class code and action is missing; it never answers 404,
    an unknown user getting the 500 of the catch; a 200 means that
    readUser found the user and updateUser went through, and any other
    answer leaves the bucket as it was. *)
Theorem put_update_user_outcomes s3 email classCode action b :
  (∃ status message, (Api.put_update_user s3 email classCode action b).1
                     = Ret (Api.Message status message))
  ∧ ((∃ message, (Api.put_update_user s3 email classCode action b).1
                 = Ret (Api.Message 400 message))
     ↔ truthy email && truthy classCode && truthy action = false)
  ∧ (∀ message, (Api.put_update_user s3 email classCode action b).1
                ≠ Ret (Api.Message 404 message))
  ∧ (∀ message, (Api.put_update_user s3 email classCode action b).1
                = Ret (Api.Message 200 message) →
       (∃ found, readUser s3 (tpl email) b = (Ret found, b))
       ∧ updateUser s3 (tpl email) classCode action b
         = (Ret message, (Api.put_update_user s3 email classCode action b).2))
  ∧ (∀ status message, (Api.put_update_user s3 email classCode action b).1
                       = Ret (Api.Message status message) →
       status ≠ 200 →
       (Api.put_update_user s3 email classCode action b).2 = b).
Proof.
  rewrite put_update_user_run.
  destruct (truthy email && truthy classCode && truthy action); cbn [negb].
  2: { split_and!; [by eexists _, _ | split; [done|by eexists] | by intros ? [=]
                    | by intros ? [=] | done]. }
  pose proof (read_only_readUser s3 (tpl email) b) as Hro.
  destruct (readUser s3 (tpl email) b) as [[found|e] b1]; simpl in Hro; subst b1.
  - destruct (updateUser s3 (tpl email) classCode action b) as [[msg|e] b2].
    + split_and!.
      * by eexists _, _.
      * split; [by intros [? [=]]|done].
      * by intros ? [=].
      * intros message [= <-]. split; [by eexists|done].
      * by intros status message [= <- <-] Hnot.
    + split_and!; [by eexists _, _ | split; [by intros [? [=]]|done] | by intros ? [=]
                  | by intros ? [=] | done].
  - split_and!; [by eexists _, _ | split; [by intros [? [=]]|done] | by intros ? [=]
                | by intros ? [=] | done].
Qed.

(** X25: Deleting a video by the id the listing gave for it removes the
    payload object and nothing else, the metadata object included; with
    its payload gone the video is in no later listing. *)
Theorem delete_video_unlists s3 key b :
  key ≠ EmptyString →
  rejects s3 (DeleteObject key) = false →
  Api.delete_video s3 (Some (JStr key)) b
  = (Ret (Api.Message 200 "Video deleted successfully"), delete key b)
  ∧ (∀ other, other ≠ key → delete key b !! other = b !! other)
  ∧ (∀ s3' ue a sc cc vs v,
       (listVideos s3' ue a sc cc (delete key b)).1 = Ret vs →
       v ∈ vs →
       prop "videoKey" (Some v) ≠ Ret (Some (JStr key))).
Proof.
  intros Hkey Hdel. split_and!.
  - unfold Api.delete_video. cbn [truthy]. rewrite bool_decide_eq_false_2 by done.
    cbn [negb]. unfold try_catch, bind, s3_delete. by rewrite Hdel.
  - intros other Hother. by rewrite lookup_delete_ne.
  - intros s3' ue a sc cc vs v Hrun Hv.
    by destruct (listVideos_no_element _ _ _ _ _ _ _ v Hrun).
Qed.

(** Lab1 is deleted by its video key. *)
Lemma delete_video_unlists_witness :
  Api.delete_video Sample.reliable (Some (JStr Sample.lab1_payload_key))
    Sample.ann_with_lab1
  = (Ret (Api.Message 200 "Video deleted successfully"),
     delete Sample.lab1_payload_key Sample.ann_with_lab1)
  ∧ delete Sample.lab1_payload_key Sample.ann_with_lab1 !! Sample.lab1_metadata_key
    = Sample.ann_with_lab1 !! Sample.lab1_metadata_key.
Proof.
  assert (Sample.lab1_payload_key ≠ EmptyString) as Hkey by discriminate.
  destruct (delete_video_unlists Sample.reliable Sample.lab1_payload_key
              Sample.ann_with_lab1 Hkey eq_refl) as (Hrun & Hrest & _).
  split; [exact Hrun|]. apply Hrest. discriminate.
Defined.



(** Ann registers through the route: the codes she typed are split at the
    commas and trimmed, and the record holds the hash. *)
Example post_register_ann :
  let run := Api.post_register Sample.reliable Cases.trim_blanks Cases.hash_strings
               Cases.ann_request ∅ in
  run.1 = Ret (Api.Payload 200 (JObj [("message", JStr "Registration successful!");
                                      ("email", JStr "a@b.com")]))
  ∧ stored_class_codes "a@b.com" run.2 = Some [JStr "7A"; JStr "7B"]
  ∧ prop "password" (Some (stored_doc run.2 (user_key "a@b.com")))
    = Ret (Some (JStr "$2b$10$secret")).
Proof. vm_compute. done. Qed.

(** The same request without class codes gets no answer. *)
Example post_register_without_codes :
  Api.post_register Sample.reliable Cases.trim_blanks Cases.hash_strings
    Cases.ann_request_without_codes ∅
  = (Throw TypeError, ∅).
Proof. reflexivity. Qed.
